(** * Octasox: loading Octatrack [.ot] slice files and listing their slices

    A shallow embedding of [octasox.cc]: the packed [ot::OTData] record, the
    loader [load] (length gate, raw read, conversion from network byte
    order) and the loop of [main] that prints one [sox] argument line per
    slice.

    Integers of the source ([uint32_t], [uint16_t], [uint8_t]) are values
    in [Z]; file contents and raw memory are lists of bytes.  The host
    byte order is a parameter, since [ntohl] and [ntohs] depend on it. *)

From Stdlib Require Import ZArith Lia List String Ascii DecimalString.
From stdpp Require Import base list.
From coqutil Require Import Byte Word.LittleEndianList Z.bitblast.
Import Stdlib.Init.Byte.
Import Stdlib.Strings.String.StringSyntax.
Import ListNotations.
Local Open Scope Z_scope.

(** ** Outcomes of running a piece of the program *)

(** A call returns normally ([Done]), leaves by [throw std::runtime_error]
    ([Throw], with the text of [what()]), or indexes the 64-entry array
    [slices] at a position that does not exist ([OutOfBounds], with the
    offending index): the behaviour of the C++ program is then undefined,
    and the model stops there. *)
Inductive outcome (A : Type) : Type :=
| Done (a : A)
| Throw (what : string)
| OutOfBounds (i : nat).

Arguments Done {A} a.
Arguments Throw {A} what.
Arguments OutOfBounds {A} i.

#[global] Instance outcome_ret : MRet outcome := fun A a => Done a.

#[global] Instance outcome_bind : MBind outcome := fun A B k m =>
  match m with
  | Done a => k a
  | Throw w => Throw w
  | OutOfBounds i => OutOfBounds i
  end.

(** ** Byte order *)

Module Endian.

Inductive byte_order : Type := LittleEndian | BigEndian.

(** The value of an unsigned integer object whose bytes in memory, by
    increasing address, are [bs]. *)
Definition mem_decode (h : byte_order) (bs : list byte) : Z :=
  match h with
  | LittleEndian => le_combine bs
  | BigEndian => le_combine (rev bs)
  end.

(** The [n] bytes in memory of an unsigned integer object of value [v]. *)
Definition mem_encode (h : byte_order) (n : nat) (v : Z) : list byte :=
  match h with
  | LittleEndian => le_split n v
  | BigEndian => rev (le_split n v)
  end.

(** Network byte order is big-endian. *)
Definition be_decode (bs : list byte) : Z := mem_decode BigEndian bs.
Definition be_encode (n : nat) (v : Z) : list byte := mem_encode BigEndian n v.

(** [ntohl] and [ntohs] of <arpa/inet.h>: the argument holds a quantity
    in network byte order; the result is that quantity as a host value. *)
Definition ntohl (h : byte_order) (v : Z) : Z := be_decode (mem_encode h 4 v).
Definition ntohs (h : byte_order) (v : Z) : Z := be_decode (mem_encode h 2 v).

End Endian.
Import Endian.

(** ** The record layout of namespace [ot] *)

Module ot.

Definition header_bytes : list byte :=
  [x46; x4f; x52; x4d;
   x00; x00; x00; x00;
   x44; x50; x53; x31;
   x53; x4d; x50; x41].

Definition unknown_bytes : list byte :=
  [x00; x00; x00; x00; x00; x02; x00].

Module Slice.
Record t : Type := mk
  { startPoint : Z;
    endPoint : Z;
    loopPoint : Z }.
End Slice.
Abbreviation Slice := Slice.t.

Record OTData : Type := mkOTData
  { header : list byte;   (* 0x00 *)
    unknown : list byte;  (* 0x10 *)
    tempo : Z;            (* 0x17 *)
    trimLen : Z;          (* 0x1B *)
    loopLen : Z;          (* 0x1F *)
    stretch : Z;          (* 0x23 *)
    loop : Z;             (* 0x27 *)
    gain : Z;             (* 0x2B *)
    quantize : Z;         (* 0x2D *)
    trimStart : Z;        (* 0x2E *)
    trimEnd : Z;          (* 0x32 *)
    loopPoint : Z;        (* 0x36 *)
    slices : list Slice;  (* 0x3A - 0x339 *)
    sliceCount : Z;       (* 0x33A *)
    checkSum : Z          (* 0x33E *) }.

(** [#pragma pack(1)]: every member starts where the previous one ends. *)
Definition capacity : nat := 64.
Definition sizeof_Slice : nat := 4 + 4 + 4.

Definition off_header : nat := 0.
Definition off_unknown : nat := off_header + 16.
Definition off_tempo : nat := off_unknown + 7.
Definition off_trimLen : nat := off_tempo + 4.
Definition off_loopLen : nat := off_trimLen + 4.
Definition off_stretch : nat := off_loopLen + 4.
Definition off_loop : nat := off_stretch + 4.
Definition off_gain : nat := off_loop + 4.
Definition off_quantize : nat := off_gain + 2.
Definition off_trimStart : nat := off_quantize + 1.
Definition off_trimEnd : nat := off_trimStart + 4.
Definition off_loopPoint : nat := off_trimEnd + 4.
Definition off_slices : nat := off_loopPoint + 4.
Definition off_sliceCount : nat := off_slices + capacity * sizeof_Slice.
Definition off_checkSum : nat := off_sliceCount + 4.
Definition sizeof_OTData : nat := off_checkSum + 2.

Definition off_slice (i : nat) : nat := off_slices + i * sizeof_Slice.

End ot.
Import ot.

(** ** Raw memory seen through the record type *)

(** The [n] bytes of [buf] from offset [off]. *)
Definition bytes_at (buf : list byte) (off n : nat) : list byte :=
  firstn n (skipn off buf).

(** An unsigned member of [n] bytes at offset [off], as the host reads it. *)
Definition member (h : byte_order) (buf : list byte) (off n : nat) : Z :=
  mem_decode h (bytes_at buf off n).

Definition slice_member (h : byte_order) (buf : list byte) (i : nat) : Slice :=
  {| Slice.startPoint := member h buf (off_slice i) 4;
     Slice.endPoint := member h buf (off_slice i + 4) 4;
     Slice.loopPoint := member h buf (off_slice i + 8) 4 |}.

(** [reinterpret_cast<char*>(&data)]: the record whose object
    representation is [buf]. *)
Definition overlay (h : byte_order) (buf : list byte) : OTData :=
  {| header := bytes_at buf off_header 16;
     unknown := bytes_at buf off_unknown 7;
     tempo := member h buf off_tempo 4;
     trimLen := member h buf off_trimLen 4;
     loopLen := member h buf off_loopLen 4;
     stretch := member h buf off_stretch 4;
     loop := member h buf off_loop 4;
     gain := member h buf off_gain 2;
     quantize := member h buf off_quantize 1;
     trimStart := member h buf off_trimStart 4;
     trimEnd := member h buf off_trimEnd 4;
     loopPoint := member h buf off_loopPoint 4;
     slices := map (slice_member h buf) (seq 0 capacity);
     sliceCount := member h buf off_sliceCount 4;
     checkSum := member h buf off_checkSum 2 |}.

(** ** The input stream *)

(** What [std::ifstream] makes of a path: the open fails (missing file,
    permission denied), or it succeeds on a file on which seeking to the
    end reports [len] bytes and from which a read from the start delivers
    the bytes [delivers] before it hits the end or an error. *)
Inductive file_state : Type :=
| open_failed
| opened (len : N) (delivers : list byte).

(** An ordinary readable file holding [bs]. *)
Definition regular (bs : list byte) : file_state :=
  opened (N.of_nat (length bs)) bs.

(** [tellg] returns -1 on a stream in a failed state; [seekg] does nothing
    there. *)
Definition tellg_begin (f : file_state) : Z :=
  match f with
  | open_failed => -1
  | opened _ _ => 0
  end.

Definition tellg_end (f : file_state) : Z :=
  match f with
  | open_failed => -1
  | opened len _ => Z.of_N len
  end.

(** [const size_t numBytes = end-begin;] where the difference of the two
    positions is never negative, so that the conversion to [size_t] keeps
    it. *)
Definition numBytes (f : file_state) : Z :=
  tellg_end f - tellg_begin f.

(** [f.read(p, n)] stores the bytes it extracts at [p] and leaves the rest
    of the destination as it was. *)
Definition read (f : file_state) (n : nat) (buf : list byte) : list byte :=
  match f with
  | open_failed => buf
  | opened _ delivers =>
      let got := firstn n delivers in
      got ++ skipn (length got) buf
  end.

(** The 12 bytes in memory of an entry of [slices]. *)
Definition object_bytes_Slice (h : byte_order) (s : Slice) : list byte :=
  mem_encode h 4 (Slice.startPoint s) ++ mem_encode h 4 (Slice.endPoint s)
    ++ mem_encode h 4 (Slice.loopPoint s).

(** ** [load] *)

Definition ntoh_Slice (h : byte_order) (s : Slice) : Slice :=
  {| Slice.startPoint := ntohl h (Slice.startPoint s);
     Slice.endPoint := ntohl h (Slice.endPoint s);
     Slice.loopPoint := ntohl h (Slice.loopPoint s) |}.

(** The eleven assignments after [// Convert endianness!]. *)
Definition convert_scalars (h : byte_order) (data : OTData) : OTData :=
  {| header := header data;
     unknown := unknown data;
     tempo := ntohl h (tempo data);
     trimLen := ntohl h (trimLen data);
     loopLen := ntohl h (loopLen data);
     stretch := ntohl h (stretch data);
     loop := ntohl h (loop data);
     gain := ntohs h (gain data);
     quantize := quantize data;
     trimStart := ntohl h (trimStart data);
     trimEnd := ntohl h (trimEnd data);
     loopPoint := ntohl h (loopPoint data);
     slices := slices data;
     sliceCount := ntohl h (sliceCount data);
     checkSum := ntohs h (checkSum data) |}.

(** [for (uint32_t i = 0; i < data.sliceCount; ++i)] of [load], with [n]
    iterations left and the counter at [i]. *)
Fixpoint convert_slices (h : byte_order) (n i : nat) (sl : list Slice)
  : outcome (list Slice) :=
  match n with
  | O => Done sl
  | S n' =>
      match sl !! i with
      | None => OutOfBounds i
      | Some s => convert_slices h n' (S i) (<[i := ntoh_Slice h s]> sl)
      end
  end.

Definition with_slices (data : OTData) (sl : list Slice) : OTData :=
  {| header := header data;
     unknown := unknown data;
     tempo := tempo data;
     trimLen := trimLen data;
     loopLen := loopLen data;
     stretch := stretch data;
     loop := loop data;
     gain := gain data;
     quantize := quantize data;
     trimStart := trimStart data;
     trimEnd := trimEnd data;
     loopPoint := loopPoint data;
     slices := sl;
     sliceCount := sliceCount data;
     checkSum := checkSum data |}.

Definition not_valid (file : string) : string :=
  (file ++ " This is not a valid .ot file")%string.

(** The buffer after [std::fill(..., 0)]. *)
Definition zeroed : list byte := repeat x00 sizeof_OTData.

Definition load (h : byte_order) (file : string) (f : file_state)
  : outcome OTData :=
  if negb (numBytes f =? Z.of_nat sizeof_OTData) then Throw (not_valid file)
  else
    let buf := read f (Z.to_nat (numBytes f)) zeroed in
    let data := convert_scalars h (overlay h buf) in
    sl ← convert_slices h (Z.to_nat (sliceCount data)) 0 (slices data);
    Done (with_slices data sl).

(** ** The slice loop of [main] *)

(** What the inner loop of [main] takes from the record for one slice: the
    counter [i] and the two members of [data.slices[i]] it prints. *)
Module Descriptor.
Record t : Type := mk
  { index : nat;
    startPoint : Z;
    endPoint : Z }.
End Descriptor.
Abbreviation SliceDescriptor := Descriptor.t.

(** [for (uint32_t i = 0; i < data.sliceCount; ++i)] of [main], with [n]
    iterations left and the counter at [i]. *)
Fixpoint slice_loop (n i : nat) (sl : list Slice)
  : outcome (list SliceDescriptor) :=
  match n with
  | O => Done []
  | S n' =>
      match sl !! i with
      | None => OutOfBounds i
      | Some s =>
          rest ← slice_loop n' (S i) sl;
          Done (Descriptor.mk i (Slice.startPoint s) (Slice.endPoint s) :: rest)
      end
  end.

Definition extractSlices (data : OTData) : outcome (list SliceDescriptor) :=
  slice_loop (Z.to_nat (sliceCount data)) 0 (slices data).

(** ** Text output *)

Local Open Scope string_scope.

(** [operator<<] on an unsigned integer. *)
Definition decimal (v : Z) : string :=
  NilZero.string_of_uint (N.to_uint (Z.to_N v)).

Fixpoint fill (n : nat) (c : ascii) : string :=
  match n with
  | O => EmptyString
  | S n' => String c (fill n' c)
  end.

(** [std::setw(w) << std::setfill(c) << s] *)
Definition setw_setfill (w : nat) (c : ascii) (s : string) : string :=
  fill (w - String.length s) c ++ s.

(** The line printed for one slice, without its end of line. *)
Definition sox_line (name input : string) (d : SliceDescriptor) : string :=
  let output := name ++ setw_setfill 2 "0" (decimal (Z.of_nat (Descriptor.index d))) ++ ".wav" in
  input ++ " " ++ output ++ " " ++ "trim "
        ++ decimal (Descriptor.startPoint d) ++ "s "
        ++ "=" ++ decimal (Descriptor.endPoint d) ++ "s ".

(** ** [main] *)

Inductive event : Type :=
| cout (line : string)
| cerr (line : string).

(** How the process ends: [main] returns, an exception leaves [main] and
    [std::terminate] is called, or the behaviour is undefined. *)
Inductive ending : Type :=
| returned (code : Z)
| terminated (what : string)
| undefined (i : nat).

Record run : Type := mkRun
  { events : list event;
    status : ending }.

Definition after (evs : list event) (r : run) : run :=
  {| events := evs ++ events r; status := status r |}.

(** [settingsFile.size() < 3 || settingsFile.substr(size-3) != ".ot"] *)
Definition not_ot (settingsFile : string) : bool :=
  (String.length settingsFile <? 3)%nat
  || negb (String.eqb
             (substring (String.length settingsFile - 3) 3 settingsFile) ".ot").

(** The body of the loop over [argv], once per remaining argument; [fs]
    tells what opening each path gives. *)
Fixpoint main_loop (h : byte_order) (fs : string -> file_state)
  (args : list string) : run :=
  match args with
  | [] => {| events := []; status := returned 0 |}
  | settingsFile :: rest =>
      if not_ot settingsFile then
        after [cerr ("Skipping " ++ settingsFile
                       ++ ": Only .ot files are supported.")]
              (main_loop h fs rest)
      else
        match load h settingsFile (fs settingsFile) with
        | Throw what => {| events := []; status := terminated what |}
        | OutOfBounds i => {| events := []; status := undefined i |}
        | Done data =>
            let name :=
              substring 0 (String.length settingsFile - 3) settingsFile in
            let input := name ++ ".wav" in
            match extractSlices data with
            | Throw what => {| events := []; status := terminated what |}
            | OutOfBounds i => {| events := []; status := undefined i |}
            | Done ds =>
                after (map (fun d => cout (sox_line name input d)) ds)
                      (main_loop h fs rest)
            end
        end
  end.

(** [args] is [argv] without [argv[0]]. *)
Definition main (h : byte_order) (fs : string -> file_state)
  (args : list string) : run :=
  match args with
  | [] => {| events := [cerr "usage: octasox OTFILE [ OTFILE ...]"];
             status := returned 1 |}
  | _ => main_loop h fs args
  end.

(** The file name that the loop body builds in [output] for slice [i]. *)
Definition output_name (name : string) (i : nat) : string :=
  name ++ setw_setfill 2 "0" (decimal (Z.of_nat i)) ++ ".wav".

(** What [main] writes for an argument that it skips. *)
Definition skipping (settingsFile : string) : event :=
  cerr ("Skipping " ++ settingsFile ++ ": Only .ot files are supported.").

Local Close Scope string_scope.

(** ** The record that a file describes *)

(** The big-endian value of the [n] bytes at offset [off]. *)
Definition be_member (buf : list byte) (off n : nat) : Z :=
  be_decode (bytes_at buf off n).

Definition be_slice (buf : list byte) (i : nat) : Slice :=
  {| Slice.startPoint := be_member buf (off_slice i) 4;
     Slice.endPoint := be_member buf (off_slice i + 4) 4;
     Slice.loopPoint := be_member buf (off_slice i + 8) 4 |}.

(** The record described by the bytes [buf] of a file: every scalar member
    and the slices below the count decoded from big-endian order, the
    slices from the count on as the host reads the raw bytes. *)
Definition decoded (h : byte_order) (buf : list byte) : OTData :=
  {| header := bytes_at buf off_header 16;
     unknown := bytes_at buf off_unknown 7;
     tempo := be_member buf off_tempo 4;
     trimLen := be_member buf off_trimLen 4;
     loopLen := be_member buf off_loopLen 4;
     stretch := be_member buf off_stretch 4;
     loop := be_member buf off_loop 4;
     gain := be_member buf off_gain 2;
     quantize := member h buf off_quantize 1;
     trimStart := be_member buf off_trimStart 4;
     trimEnd := be_member buf off_trimEnd 4;
     loopPoint := be_member buf off_loopPoint 4;
     slices :=
       map (fun i => if Z.of_nat i <? be_member buf off_sliceCount 4
                     then be_slice buf i else slice_member h buf i)
           (seq 0 capacity);
     sliceCount := be_member buf off_sliceCount 4;
     checkSum := be_member buf off_checkSum 2 |}.

(** What the loop of [main] prints of slice [k] of a file with bytes
    [buf]: its index and the big-endian values of its first two members. *)
Definition be_descriptor (buf : list byte) (k : nat) : SliceDescriptor :=
  Descriptor.mk k (be_member buf (off_slice k) 4)
                  (be_member buf (off_slice k + 4) 4).

(** ** Writing a record out *)

(** The file that holds [data]: every member in declaration order without
    padding, the integers in big-endian order.  The program has no writer;
    this is the inverse that the round trip is stated against. *)
Definition serialize_Slice (s : Slice) : list byte :=
  be_encode 4 (Slice.startPoint s) ++ be_encode 4 (Slice.endPoint s)
    ++ be_encode 4 (Slice.loopPoint s).

Definition serialize (data : OTData) : list byte :=
  header data ++ unknown data
    ++ be_encode 4 (tempo data)
    ++ be_encode 4 (trimLen data)
    ++ be_encode 4 (loopLen data)
    ++ be_encode 4 (stretch data)
    ++ be_encode 4 (loop data)
    ++ be_encode 2 (gain data)
    ++ be_encode 1 (quantize data)
    ++ be_encode 4 (trimStart data)
    ++ be_encode 4 (trimEnd data)
    ++ be_encode 4 (loopPoint data)
    ++ concat (map serialize_Slice (slices data))
    ++ be_encode 4 (sliceCount data)
    ++ be_encode 2 (checkSum data).

(** A record whose members fit their types. *)
Definition u32 (v : Z) : Prop := 0 <= v < 2 ^ 32.
Definition u16 (v : Z) : Prop := 0 <= v < 2 ^ 16.
Definition u8 (v : Z) : Prop := 0 <= v < 2 ^ 8.

Definition wf_Slice (s : Slice) : Prop :=
  u32 (Slice.startPoint s) /\ u32 (Slice.endPoint s) /\ u32 (Slice.loopPoint s).

Record wf_OTData (data : OTData) : Prop := mk_wf
  { wf_header : length (header data) = 16%nat;
    wf_unknown : length (unknown data) = 7%nat;
    wf_tempo : u32 (tempo data);
    wf_trimLen : u32 (trimLen data);
    wf_loopLen : u32 (loopLen data);
    wf_stretch : u32 (stretch data);
    wf_loop : u32 (loop data);
    wf_gain : u16 (gain data);
    wf_quantize : u8 (quantize data);
    wf_trimStart : u32 (trimStart data);
    wf_trimEnd : u32 (trimEnd data);
    wf_loopPoint : u32 (loopPoint data);
    wf_slices_length : length (slices data) = capacity;
    wf_slices : Forall wf_Slice (slices data);
    wf_sliceCount : u32 (sliceCount data);
    wf_checkSum : u16 (checkSum data) }.

(** ** Sample inputs *)

Definition sample_slices : list Slice :=
  [ Slice.mk 126 8872 0; Slice.mk 9000 15000 0 ]
    ++ repeat (Slice.mk 0 0 0) 62.

Definition sample (count : Z) : OTData :=
  {| header := header_bytes; unknown := unknown_bytes;
     tempo := 1440; trimLen := 0; loopLen := 0; stretch := 0; loop := 0;
     gain := 48; quantize := 255; trimStart := 0; trimEnd := 15000;
     loopPoint := 0; slices := sample_slices; sliceCount := count;
     checkSum := 0 |}.

Definition sample_file (count : Z) : list byte := serialize (sample count).

(** A record that shares with [sample 2] its count and first two slices. *)
Definition other_sample : OTData :=
  {| header := repeat x00 16; unknown := repeat x00 7;
     tempo := 2880; trimLen := 1; loopLen := 2; stretch := 2; loop := 1;
     gain := 96; quantize := 0; trimStart := 5; trimEnd := 6;
     loopPoint := 7;
     slices := [ Slice.mk 126 8872 0; Slice.mk 9000 15000 0 ]
                 ++ repeat (Slice.mk 11 22 33) 62;
     sliceCount := 2; checkSum := 4660 |}.

(** A directory with one good file; every other path does not open. *)
Definition two_files (path : string) : file_state :=
  if String.eqb path "good.ot" then regular (sample_file 2) else open_failed.

(** * Properties *)

(** ** Byte order *)

Section EndianFacts.

Variable h : byte_order.

Lemma mem_encode_length n v : length (mem_encode h n v) = n.
Proof.
  destruct h; simpl; rewrite ?length_rev; apply length_le_split.
Qed.

Lemma mem_encode_decode bs :
  mem_encode h (length bs) (mem_decode h bs) = bs.
Proof.
  destruct h; simpl.
  - apply split_le_combine.
  - rewrite <- (length_rev bs), split_le_combine. apply rev_involutive.
Qed.

Lemma mem_decode_encode n v :
  mem_decode h (mem_encode h n v) = v mod 2 ^ (Z.of_nat n * 8).
Proof.
  destruct h; simpl; rewrite ?rev_involutive; apply le_combine_split.
Qed.

(** Reading network bytes into a host integer and passing it through
    [ntohl] gives the big-endian value of the bytes, on either host. *)
Lemma ntohl_mem_decode bs :
  length bs = 4%nat -> ntohl h (mem_decode h bs) = be_decode bs.
Proof.
  intros L. unfold ntohl. rewrite <- L, mem_encode_decode. reflexivity.
Qed.

Lemma ntohs_mem_decode bs :
  length bs = 2%nat -> ntohs h (mem_decode h bs) = be_decode bs.
Proof.
  intros L. unfold ntohs. rewrite <- L, mem_encode_decode. reflexivity.
Qed.

End EndianFacts.

Lemma be_decode_encode n v :
  0 <= v < 2 ^ (Z.of_nat n * 8) -> be_decode (be_encode n v) = v.
Proof.
  intros R. unfold be_decode, be_encode.
  rewrite mem_decode_encode. apply Z.mod_small, R.
Qed.

Lemma be_encode_length n v : length (be_encode n v) = n.
Proof. apply mem_encode_length. Qed.

(** On a big-endian host [ntohl] changes nothing; on a little-endian host
    it reverses the four bytes. *)
Lemma ntohl_BigEndian v : u32 v -> ntohl BigEndian v = v.
Proof. intros R. apply (be_decode_encode 4), R. Qed.

Lemma ntohl_LittleEndian_bytes bs :
  length bs = 4%nat ->
  ntohl LittleEndian (mem_decode LittleEndian bs) = mem_decode LittleEndian (rev bs).
Proof. intros L. rewrite ntohl_mem_decode by exact L. reflexivity. Qed.

(** The value of a byte string, first byte least significant. *)
Lemma le_combine_cons_add b t :
  le_combine (b :: t) = byte.unsigned b + 256 * le_combine t.
Proof.
  change (le_combine (b :: t))
    with (Z.lor (byte.unsigned b) (Z.shiftl (le_combine t) 8)).
  pose proof (byte.unsigned_range b) as R.
  rewrite Z.or_to_plus.
  - rewrite Z.shiftl_mul_pow2 by lia. change (2 ^ 8) with 256. lia.
  - rewrite <- (Z.mod_small (byte.unsigned b) (2 ^ 8)) by exact R.
    rewrite <- Z.land_ones by lia.
    Z.bitblast. rewrite (Z.testbit_neg_r (le_combine t)) by lia.
    apply Bool.andb_false_r.
Qed.

(** Big-endian: the first byte is the most significant one. *)
Lemma be_decode_4 a b c d :
  be_decode [a; b; c; d]
  = byte.unsigned a * 2 ^ 24 + byte.unsigned b * 2 ^ 16
    + byte.unsigned c * 2 ^ 8 + byte.unsigned d.
Proof.
  unfold be_decode, mem_decode. cbn [rev app].
  rewrite !le_combine_cons_add, le_combine_nil.
  change (2 ^ 24) with 16777216. change (2 ^ 16) with 65536.
  change (2 ^ 8) with 256. lia.
Qed.

Lemma be_decode_2 a b :
  be_decode [a; b] = byte.unsigned a * 2 ^ 8 + byte.unsigned b.
Proof.
  unfold be_decode, mem_decode. cbn [rev app].
  rewrite !le_combine_cons_add, le_combine_nil.
  change (2 ^ 8) with 256. lia.
Qed.

(** A single byte reads the same on either host. *)
Lemma mem_decode_be_encode_1 h v : u8 v -> mem_decode h (be_encode 1 v) = v.
Proof.
  intros R. destruct h; [|apply (be_decode_encode 1), R].
  change (mem_decode LittleEndian (be_encode 1 v)) with (be_decode (be_encode 1 v)).
  apply (be_decode_encode 1), R.
Qed.

Example ntohl_swaps : ntohl LittleEndian 0xA0050000 = 0x000005A0.
Proof. reflexivity. Qed.

(** ** The layout *)

(** The offsets that packing gives are the ones noted beside the members
    of [ot::OTData]. *)
Lemma offsets :
  [off_header; off_unknown; off_tempo; off_trimLen; off_loopLen; off_stretch;
   off_loop; off_gain; off_quantize; off_trimStart; off_trimEnd;
   off_loopPoint; off_slices; off_sliceCount; off_checkSum]
  = map Z.to_nat
      [0x00; 0x10; 0x17; 0x1B; 0x1F; 0x23; 0x27; 0x2B; 0x2D; 0x2E; 0x32; 0x36;
       0x3A; 0x33A; 0x33E].
Proof. reflexivity. Qed.

Lemma sizeof_OTData_eq : sizeof_OTData = 832%nat.
Proof. reflexivity. Qed.

Lemma off_slice_eq i : off_slice i = (58 + i * 12)%nat.
Proof. reflexivity. Qed.

(** ** Slicing byte lists *)

Lemma bytes_at_length buf off n :
  (off + n <= length buf)%nat -> length (bytes_at buf off n) = n.
Proof.
  intros L. unfold bytes_at. rewrite length_firstn, length_skipn. lia.
Qed.

Lemma drop_repeat (b : byte) : forall n m,
  drop n (repeat b m) = repeat b (m - n).
Proof.
  induction n as [|n IH]; intros m.
  - rewrite drop_0, Nat.sub_0_r. reflexivity.
  - destruct m as [|m]; [reflexivity|]. simpl. apply IH.
Qed.

Lemma bytes_at_add (buf : list byte) off n m :
  bytes_at buf off (n + m) = bytes_at buf off n ++ bytes_at buf (off + n) m.
Proof.
  unfold bytes_at. rewrite <- take_take_drop, drop_drop. reflexivity.
Qed.

Lemma bytes_at_here (x rest : list byte) n :
  length x = n -> bytes_at (x ++ rest) 0 n = x.
Proof.
  intros <-. unfold bytes_at. rewrite drop_0. apply take_app_length.
Qed.

Lemma bytes_at_later (x rest : list byte) k off n :
  length x = k -> (k <= off)%nat ->
  bytes_at (x ++ rest) off n = bytes_at rest (off - k) n.
Proof.
  intros <- L. unfold bytes_at. rewrite drop_app.
  rewrite (drop_ge x) by exact L. reflexivity.
Qed.

Lemma bytes_at_inside (x rest : list byte) off n :
  (off + n <= length x)%nat ->
  bytes_at (x ++ rest) off n = bytes_at x off n.
Proof.
  intros L. unfold bytes_at. rewrite drop_app, take_app, length_drop.
  replace (n - (length x - off))%nat with 0%nat by lia.
  rewrite take_0. apply app_nil_r.
Qed.

(** ** The two loops over [slices] *)

Section Loops.

Variable h : byte_order.

(** With room for every iteration the loop of [load] ends normally, has
    passed exactly the entries [i], ..., [i + n - 1] through [ntohl] and
    has left the others as they were. *)
Lemma convert_slices_done n : forall i (sl : list Slice),
  (i + n <= length sl)%nat ->
  exists sl', convert_slices h n i sl = Done sl'
    /\ length sl' = length sl
    /\ forall j, sl' !! j =
         if decide (i <= j < i + n)%nat then ntoh_Slice h <$> sl !! j
         else sl !! j.
Proof.
  induction n as [|n IH]; intros i sl L; simpl.
  - exists sl. repeat split. intros j. case_decide; [lia|reflexivity].
  - destruct (lookup_lt_is_Some_2 sl i) as [s Hs]; [lia|]. rewrite Hs.
    destruct (IH (S i) (<[i:=ntoh_Slice h s]> sl)) as (sl' & E & Len & Lk).
    { rewrite length_insert. lia. }
    exists sl'. rewrite length_insert in Len. repeat split; [exact E|exact Len|].
    intros j. rewrite Lk. destruct (decide (j = i)) as [->|Hne].
    + rewrite list_lookup_insert_eq by lia. rewrite Hs. simpl.
      repeat case_decide; try lia; reflexivity.
    + rewrite list_lookup_insert_ne by congruence.
      repeat case_decide; try lia; reflexivity.
Qed.

(** Without room it indexes the array right behind its last entry. *)
Lemma convert_slices_oob n : forall i (sl : list Slice),
  (i <= length sl < i + n)%nat ->
  convert_slices h n i sl = OutOfBounds (length sl).
Proof.
  induction n as [|n IH]; intros i sl L; simpl; [lia|].
  destruct (sl !! i) as [s|] eqn:Hs.
  - apply lookup_lt_Some in Hs.
    rewrite IH; rewrite length_insert; [reflexivity|lia].
  - apply lookup_ge_None in Hs. f_equal. lia.
Qed.

Lemma slice_loop_done n : forall i (sl : list Slice),
  (i + n <= length sl)%nat ->
  exists ds, slice_loop n i sl = Done ds
    /\ length ds = n
    /\ forall k, (k < n)%nat ->
         exists s, sl !! (i + k)%nat = Some s
           /\ ds !! k = Some (Descriptor.mk (i + k) (Slice.startPoint s)
                                            (Slice.endPoint s)).
Proof.
  induction n as [|n IH]; intros i sl L; simpl.
  - exists []. repeat split. intros k Hk. lia.
  - destruct (lookup_lt_is_Some_2 sl i) as [s Hs]; [lia|]. rewrite Hs.
    destruct (IH (S i) sl) as (ds & E & Len & Lk); [lia|].
    rewrite E. simpl. eexists. split; [reflexivity|]. split; [simpl; lia|].
    intros [|k] Hk.
    + exists s. rewrite Nat.add_0_r. split; [exact Hs|reflexivity].
    + destruct (Lk k) as (s' & Hs' & Hd); [lia|].
      exists s'. rewrite <- Nat.add_succ_comm. split; [exact Hs'|exact Hd].
Qed.

Lemma slice_loop_oob n : forall i (sl : list Slice),
  (i <= length sl < i + n)%nat ->
  slice_loop n i sl = OutOfBounds (length sl).
Proof.
  induction n as [|n IH]; intros i sl L; simpl; [lia|].
  destruct (sl !! i) as [s|] eqn:Hs.
  - apply lookup_lt_Some in Hs. rewrite IH by lia. reflexivity.
  - apply lookup_ge_None in Hs. f_equal. lia.
Qed.

(** The loop of [main] looks at nothing but the entries it is asked to
    walk over. *)
Lemma slice_loop_ext n : forall i (sl1 sl2 : list Slice),
  (forall j, (i <= j < i + n)%nat -> sl1 !! j = sl2 !! j) ->
  slice_loop n i sl1 = slice_loop n i sl2.
Proof.
  induction n as [|n IH]; intros i sl1 sl2 Agree; simpl; [reflexivity|].
  rewrite <- (Agree i) by lia.
  rewrite (IH (S i) sl1 sl2); [reflexivity|].
  intros j Hj. apply Agree. lia.
Qed.

End Loops.

(** ** What [load] returns *)

Lemma be_member_nonneg buf off n : 0 <= be_member buf off n.
Proof.
  unfold be_member, be_decode. simpl.
  apply (le_combine_bound (rev (bytes_at buf off n))).
Qed.

Lemma read_length f buf :
  length (read f (length buf) buf) = length buf.
Proof.
  destruct f as [|len d]; simpl; [reflexivity|].
  rewrite length_app, length_drop, length_take. lia.
Qed.

Lemma read_regular bs buf :
  length bs = length buf -> read (regular bs) (length buf) buf = bs.
Proof.
  intros L. simpl. rewrite <- L, firstn_all, L, drop_all. apply app_nil_r.
Qed.

Lemma numBytes_regular bs : numBytes (regular bs) = Z.of_nat (length bs).
Proof. unfold numBytes. simpl. lia. Qed.

Lemma numBytes_open_failed : numBytes open_failed = 0.
Proof. reflexivity. Qed.

Lemma zeroed_length : length zeroed = sizeof_OTData.
Proof. apply repeat_length. Qed.

Section Load.

Variable h : byte_order.
Variable file : string.

(** The length gate. *)
Lemma load_gate f :
  numBytes f <> Z.of_nat sizeof_OTData -> load h file f = Throw (not_valid file).
Proof.
  intros N. unfold load.
  destruct (Z.eqb_spec (numBytes f) (Z.of_nat sizeof_OTData)); [contradiction|].
  reflexivity.
Qed.

Lemma ntohl_member buf off :
  (off + 4 <= length buf)%nat ->
  ntohl h (member h buf off 4) = be_member buf off 4.
Proof.
  intros L. apply ntohl_mem_decode, bytes_at_length, L.
Qed.

Lemma ntohs_member buf off :
  (off + 2 <= length buf)%nat ->
  ntohs h (member h buf off 2) = be_member buf off 2.
Proof.
  intros L. apply ntohs_mem_decode, bytes_at_length, L.
Qed.

Lemma ntoh_Slice_member buf i :
  (off_slice i + 12 <= length buf)%nat ->
  ntoh_Slice h (slice_member h buf i) = be_slice buf i.
Proof.
  intros L. unfold ntoh_Slice, slice_member, be_slice.
  cbn [Slice.startPoint Slice.endPoint Slice.loopPoint].
  rewrite !ntohl_member by lia. reflexivity.
Qed.

(** Past the gate [load] depends on the bytes that end up in the record
    only: it returns [decoded] of them when the count in the file fits
    the array, and otherwise runs off the array at index 64. *)
Lemma load_sized f :
  numBytes f = Z.of_nat sizeof_OTData ->
  load h file f =
    let buf := read f sizeof_OTData zeroed in
    if be_member buf off_sliceCount 4 <=? Z.of_nat capacity
    then Done (decoded h buf) else OutOfBounds capacity.
Proof.
  intros N. unfold load. rewrite N, Z.eqb_refl, Nat2Z.id. cbn [negb].
  cbv zeta.
  assert (L : length (read f sizeof_OTData zeroed) = 832%nat).
  { rewrite <- zeroed_length at 1. rewrite read_length. reflexivity. }
  set (buf := read f sizeof_OTData zeroed) in *.
  assert (C : sliceCount (convert_scalars h (overlay h buf))
              = be_member buf off_sliceCount 4).
  { cbn [sliceCount convert_scalars overlay].
    apply ntohl_member. rewrite L. vm_compute. lia. }
  rewrite C. pose proof (be_member_nonneg buf off_sliceCount 4) as Pos.
  set (count := be_member buf off_sliceCount 4) in *.
  assert (SL : length (slices (convert_scalars h (overlay h buf))) = capacity).
  { cbn [slices convert_scalars overlay]. rewrite length_map. apply length_seq. }
  destruct (Z.leb_spec count (Z.of_nat capacity)) as [Le|Gt].
  - destruct (convert_slices_done h (Z.to_nat count) 0
                (slices (convert_scalars h (overlay h buf))))
      as (sl' & E & Len & Lk).
    { rewrite SL. lia. }
    rewrite E. cbn [mbind outcome_bind]. f_equal.
    unfold with_slices, decoded.
    cbn [header unknown tempo trimLen loopLen stretch loop gain quantize
         trimStart trimEnd loopPoint sliceCount checkSum convert_scalars
         overlay].
    rewrite !ntohl_member, !ntohs_member by (rewrite L; vm_compute; lia).
    f_equal. fold count.
    apply list_eq. intros j. rewrite Lk.
    cbn [slices convert_scalars overlay].
    change (@map nat Slice) with (@fmap list _ nat Slice).
    rewrite !list_lookup_fmap.
    destruct (decide (j < capacity)%nat) as [Hj|Hj].
    + rewrite lookup_seq_lt by exact Hj. cbn [fmap option_fmap option_map Nat.add].
      case_decide as D.
      * destruct (Z.ltb_spec (Z.of_nat j) count); [|lia].
        rewrite ntoh_Slice_member; [reflexivity|].
        rewrite L, off_slice_eq. unfold capacity in Hj. lia.
      * destruct (Z.ltb_spec (Z.of_nat j) count); [lia|reflexivity].
    + rewrite lookup_seq_ge by lia. cbn [fmap option_fmap option_map].
      case_decide; reflexivity.
  - rewrite convert_slices_oob; rewrite SL; [reflexivity|lia].
Qed.

End Load.

(** ** Reading back what [serialize] wrote *)

Lemma bytes_at_shift (x rest : list byte) k off n :
  length x = k -> bytes_at (x ++ rest) (k + off) n = bytes_at rest off n.
Proof.
  intros L. rewrite (bytes_at_later x rest k) by (exact L || lia).
  f_equal. lia.
Qed.

Lemma serialize_Slice_length s : length (serialize_Slice s) = sizeof_Slice.
Proof.
  unfold serialize_Slice. rewrite !length_app, !be_encode_length. reflexivity.
Qed.

Lemma serialize_slices_length (sl : list Slice) :
  length (concat (map serialize_Slice sl)) = (length sl * sizeof_Slice)%nat.
Proof.
  induction sl as [|s sl IH]; [reflexivity|].
  cbn [map concat length]. rewrite length_app, serialize_Slice_length, IH.
  unfold sizeof_Slice. lia.
Qed.

(** The 12 bytes of entry [i] of the array. *)
Lemma bytes_at_serialize_slices (sl : list Slice) : forall i s o n,
  sl !! i = Some s -> (o + n <= sizeof_Slice)%nat ->
  bytes_at (concat (map serialize_Slice sl)) (i * sizeof_Slice + o) n
  = bytes_at (serialize_Slice s) o n.
Proof.
  induction sl as [|s0 sl IH]; intros i s o n Hs Ho; [discriminate|].
  cbn [map concat]. destruct i as [|i].
  - injection Hs as ->. apply bytes_at_inside.
    rewrite serialize_Slice_length. exact Ho.
  - replace (S i * sizeof_Slice + o)%nat
      with (sizeof_Slice + (i * sizeof_Slice + o))%nat by lia.
    rewrite bytes_at_shift by apply serialize_Slice_length.
    apply IH; assumption.
Qed.

Lemma serialize_Slice_members s :
  bytes_at (serialize_Slice s) 0 4 = be_encode 4 (Slice.startPoint s)
  /\ bytes_at (serialize_Slice s) 4 4 = be_encode 4 (Slice.endPoint s)
  /\ bytes_at (serialize_Slice s) 8 4 = be_encode 4 (Slice.loopPoint s).
Proof.
  unfold serialize_Slice. split; [|split]; reflexivity.
Qed.

Section Serialize.

Variable data : OTData.
Hypothesis WF : wf_OTData data.

Lemma serialize_length : length (serialize data) = sizeof_OTData.
Proof.
  unfold serialize.
  rewrite !length_app, !be_encode_length, serialize_slices_length.
  rewrite (wf_header _ WF), (wf_unknown _ WF), (wf_slices_length _ WF).
  reflexivity.
Qed.

(** Skip one leading part of the file. *)
Ltac skip :=
  erewrite bytes_at_later;
  [ | first [ apply be_encode_length | exact (wf_header _ WF)
            | exact (wf_unknown _ WF) ] | vm_compute; lia ].

Ltac here :=
  apply bytes_at_here;
  first [ apply be_encode_length | exact (wf_header _ WF)
        | exact (wf_unknown _ WF) ].

Lemma serialize_header : bytes_at (serialize data) off_header 16 = header data.
Proof. unfold serialize. here. Qed.

Lemma serialize_unknown : bytes_at (serialize data) off_unknown 7 = unknown data.
Proof. unfold serialize. skip. here. Qed.

Lemma serialize_tempo : bytes_at (serialize data) off_tempo 4 = be_encode 4 (tempo data).
Proof. unfold serialize. do 2 skip. here. Qed.

Lemma serialize_trimLen : bytes_at (serialize data) off_trimLen 4 = be_encode 4 (trimLen data).
Proof. unfold serialize. do 3 skip. here. Qed.

Lemma serialize_loopLen : bytes_at (serialize data) off_loopLen 4 = be_encode 4 (loopLen data).
Proof. unfold serialize. do 4 skip. here. Qed.

Lemma serialize_stretch : bytes_at (serialize data) off_stretch 4 = be_encode 4 (stretch data).
Proof. unfold serialize. do 5 skip. here. Qed.

Lemma serialize_loop : bytes_at (serialize data) off_loop 4 = be_encode 4 (loop data).
Proof. unfold serialize. do 6 skip. here. Qed.

Lemma serialize_gain : bytes_at (serialize data) off_gain 2 = be_encode 2 (gain data).
Proof. unfold serialize. do 7 skip. here. Qed.

Lemma serialize_quantize : bytes_at (serialize data) off_quantize 1 = be_encode 1 (quantize data).
Proof. unfold serialize. do 8 skip. here. Qed.

Lemma serialize_trimStart : bytes_at (serialize data) off_trimStart 4 = be_encode 4 (trimStart data).
Proof. unfold serialize. do 9 skip. here. Qed.

Lemma serialize_trimEnd : bytes_at (serialize data) off_trimEnd 4 = be_encode 4 (trimEnd data).
Proof. unfold serialize. do 10 skip. here. Qed.

Lemma serialize_loopPoint : bytes_at (serialize data) off_loopPoint 4 = be_encode 4 (loopPoint data).
Proof. unfold serialize. do 11 skip. here. Qed.

Lemma serialize_sliceCount : bytes_at (serialize data) off_sliceCount 4 = be_encode 4 (sliceCount data).
Proof.
  unfold serialize. do 12 skip.
  erewrite bytes_at_later;
    [ | apply serialize_slices_length
      | rewrite (wf_slices_length _ WF); vm_compute; lia ].
  rewrite (wf_slices_length _ WF). here.
Qed.

Lemma serialize_checkSum : bytes_at (serialize data) off_checkSum 2 = be_encode 2 (checkSum data).
Proof.
  unfold serialize. do 12 skip.
  erewrite bytes_at_later;
    [ | apply serialize_slices_length
      | rewrite (wf_slices_length _ WF); vm_compute; lia ].
  rewrite (wf_slices_length _ WF). skip.
  rewrite <- (app_nil_r (be_encode 2 (checkSum data))) at 1. here.
Qed.

Lemma serialize_slice i s o n :
  slices data !! i = Some s -> (o + n <= sizeof_Slice)%nat ->
  bytes_at (serialize data) (off_slice i + o) n = bytes_at (serialize_Slice s) o n.
Proof.
  intros Hs Ho. unfold serialize.
  rewrite off_slice_eq.
  do 12 (erewrite bytes_at_later;
         [ | first [ apply be_encode_length | exact (wf_header _ WF)
                   | exact (wf_unknown _ WF) ] | lia ]).
  replace (58 + i * 12 + o - 16 - 7 - 4 - 4 - 4 - 4 - 4 - 2 - 1 - 4 - 4 - 4)%nat
    with (i * sizeof_Slice + o)%nat by (unfold sizeof_Slice; lia).
  rewrite bytes_at_inside.
  - apply bytes_at_serialize_slices; assumption.
  - rewrite serialize_slices_length. apply lookup_lt_Some in Hs.
    unfold sizeof_Slice in *. nia.
Qed.

End Serialize.

(** ** Consequences for ordinary files *)

Section LoadRegular.

Variable h : byte_order.
Variable file : string.

Lemma load_regular bs :
  length bs = sizeof_OTData ->
  load h file (regular bs) =
    if be_member bs off_sliceCount 4 <=? Z.of_nat capacity
    then Done (decoded h bs) else OutOfBounds capacity.
Proof.
  intros L. rewrite load_sized by (rewrite numBytes_regular, L; reflexivity).
  cbv zeta. rewrite <- zeroed_length, read_regular; [reflexivity|].
  rewrite zeroed_length. exact L.
Qed.

Lemma load_regular_gate bs :
  length bs <> sizeof_OTData -> load h file (regular bs) = Throw (not_valid file).
Proof.
  intros L. apply load_gate. rewrite numBytes_regular. lia.
Qed.

(** Whenever [load] returns, the file passed the gate, its count fits
    the array, and the record is [decoded] of the bytes read. *)
Lemma load_Done_inv f data :
  load h file f = Done data ->
  numBytes f = Z.of_nat sizeof_OTData
  /\ data = decoded h (read f sizeof_OTData zeroed)
  /\ sliceCount data <= Z.of_nat capacity.
Proof.
  intros E.
  destruct (Z.eq_dec (numBytes f) (Z.of_nat sizeof_OTData)) as [N|N].
  - rewrite load_sized in E by exact N. cbv zeta in E.
    destruct (Z.leb_spec (be_member (read f sizeof_OTData zeroed) off_sliceCount 4)
                (Z.of_nat capacity)) as [Le|Gt]; [|discriminate].
    injection E as <-. repeat split; [exact N|exact Le].
  - rewrite load_gate in E by exact N. discriminate.
Qed.

Lemma load_regular_Done_inv bs data :
  load h file (regular bs) = Done data ->
  length bs = sizeof_OTData /\ data = decoded h bs
  /\ sliceCount data <= Z.of_nat capacity.
Proof.
  intros E.
  destruct (Nat.eq_dec (length bs) sizeof_OTData) as [L|L].
  - rewrite load_regular in E by exact L.
    destruct (Z.leb_spec (be_member bs off_sliceCount 4) (Z.of_nat capacity))
      as [Le|Gt]; [|discriminate].
    injection E as <-. repeat split; [exact L|exact Le].
  - rewrite load_regular_gate in E by exact L. discriminate.
Qed.

End LoadRegular.

Lemma decoded_slices_length h buf : length (slices (decoded h buf)) = capacity.
Proof. cbn [slices decoded]. rewrite length_map. apply length_seq. Qed.

Lemma decoded_slices_lookup h buf i :
  (i < capacity)%nat ->
  slices (decoded h buf) !! i =
    Some (if Z.of_nat i <? sliceCount (decoded h buf)
          then be_slice buf i else slice_member h buf i).
Proof.
  intros Hi. cbn [slices sliceCount decoded].
  change (@map nat Slice) with (@fmap list _ nat Slice).
  rewrite list_lookup_fmap, lookup_seq_lt by exact Hi. reflexivity.
Qed.

(** * The claims *)

(** ** C1: the length gate *)

(** C1, as stated, fails: a file of 832 bytes, a length other than 830, is
    loaded, a file of 830 bytes is refused, and the size that the gate
    compares with is not 830. *)
Lemma size_gate_is_not_830 :
  length (sample_file 2) <> 830%nat
  /\ load LittleEndian "a.ot" (regular (sample_file 2)) = Done (sample 2)
  /\ length (take 830 (sample_file 2)) = 830%nat
  /\ load LittleEndian "a.ot" (regular (take 830 (sample_file 2)))
     = Throw "a.ot This is not a valid .ot file"
  /\ sizeof_OTData <> 830%nat.
Proof.
  split; [vm_compute; lia|]. split; [vm_compute; reflexivity|].
  split; [vm_compute; reflexivity|]. split; [vm_compute; reflexivity|].
  vm_compute; lia.
Qed.

(** C1, amended: the size of the packed record, which the gate compares
    the length of the file with, is 832 bytes; for every file whose length
    is anything other than exactly 832 bytes, [load] throws the
    [std::runtime_error] that names the file and returns no record. *)
Theorem load_size_gate (h : byte_order) (file : string) (bs : list byte) :
  length bs <> 832%nat ->
  sizeof_OTData = 832%nat
  /\ load h file (regular bs) = Throw (file ++ " This is not a valid .ot file")%string
  /\ forall data, load h file (regular bs) <> Done data.
Proof.
  intros L. split; [reflexivity|].
  assert (E : load h file (regular bs) = Throw (not_valid file))
    by (apply load_regular_gate; exact L).
  split; [exact E|]. intros data. rewrite E. discriminate.
Qed.

Lemma load_size_gate_witness :
  sizeof_OTData = 832%nat
  /\ load BigEndian "AmnKC.ot" (regular [x46; x4f; x52; x4d])
     = Throw ("AmnKC.ot" ++ " This is not a valid .ot file")%string
  /\ forall data, load BigEndian "AmnKC.ot" (regular [x46; x4f; x52; x4d])
                  <> Done data.
Proof.
  apply (load_size_gate BigEndian "AmnKC.ot" [x46; x4f; x52; x4d]).
  simpl. lia.
Defined.

(** ** C5: files that cannot be opened or read *)

(** C5, as stated, fails: for a file that cannot be opened [load] throws
    exactly what it throws for a file of the wrong length, and when the
    read of a file of the right length stops early it throws nothing. *)
Lemma open_failure_is_not_told_apart :
  load LittleEndian "a.ot" open_failed
  = load LittleEndian "a.ot" (regular [x00; x01; x02])
  /\ load LittleEndian "a.ot" open_failed
     = Throw "a.ot This is not a valid .ot file"
  /\ exists data,
       load LittleEndian "a.ot" (opened 832 (take 100 (sample_file 2)))
       = Done data.
Proof.
  split; [reflexivity|]. split; [reflexivity|].
  eexists. vm_compute. reflexivity.
Qed.

(** C5, amended: for every path whose file cannot be opened, [load] computes
    a length of 0 and throws the same [std::runtime_error], with the same
    text, as for any file of a length other than 832 bytes; the program
    has one kind of error only.  A read that delivers fewer bytes than the
    length announced is not noticed: [load] goes on as if the missing
    bytes were zero. *)
Theorem load_open_failed_as_wrong_length
  (h : byte_order) (file : string) (bs delivers : list byte) :
  length bs <> 832%nat ->
  (length delivers <= 832)%nat ->
  numBytes open_failed = 0
  /\ load h file open_failed = Throw (file ++ " This is not a valid .ot file")%string
  /\ load h file open_failed = load h file (regular bs)
  /\ load h file (opened 832 delivers)
     = load h file (regular (delivers ++ repeat x00 (832 - length delivers))).
Proof.
  intros L Short. split; [reflexivity|]. split; [reflexivity|].
  split.
  - rewrite load_regular_gate by exact L. reflexivity.
  - rewrite (load_sized h file (opened 832 delivers)) by reflexivity.
    rewrite load_regular
      by (rewrite length_app, repeat_length; change sizeof_OTData with 832%nat; lia).
    cbv zeta.
    assert (R : read (opened 832 delivers) sizeof_OTData zeroed
                = delivers ++ repeat x00 (832 - length delivers)).
    { unfold read, zeroed. change sizeof_OTData with 832%nat.
      rewrite take_ge by lia. f_equal.
      apply drop_repeat. }
    rewrite R. reflexivity.
Qed.

Lemma load_open_failed_as_wrong_length_witness :
  numBytes open_failed = 0
  /\ load LittleEndian "gone.ot" open_failed
     = Throw ("gone.ot" ++ " This is not a valid .ot file")%string
  /\ load LittleEndian "gone.ot" open_failed
     = load LittleEndian "gone.ot" (regular [x00])
  /\ load LittleEndian "gone.ot" (opened 832 [x46; x4f])
     = load LittleEndian "gone.ot"
         (regular ([x46; x4f] ++ repeat x00 (832 - length [x46; x4f]))).
Proof.
  apply (load_open_failed_as_wrong_length LittleEndian "gone.ot" [x00] [x46; x4f]).
  - simpl. lia.
  - simpl. lia.
Defined.

(** ** C9: the header is not looked at *)

(** C9, as stated, fails: a file of exactly the size of the record whose
    count is 100 is not loaded; the loop of [load] leaves the array. *)
Lemma right_size_does_not_load :
  length (sample_file 100) = sizeof_OTData
  /\ load LittleEndian "a.ot" (regular (sample_file 100)) = OutOfBounds 64.
Proof. split; vm_compute; reflexivity. Qed.

(** C9, amended: [load] never looks at the 16 bytes of the header or at
    the 7 bytes after it, and never compares them with [header_bytes]:
    every file of exactly 832 bytes whose count is at most 64 is loaded,
    whatever its other bytes are, and the record holds the first 23 bytes
    as they are; [load] throws on a wrong length (or a file that does not
    open) only. *)
Theorem load_ignores_header (h : byte_order) (file : string) (bs : list byte) :
  length bs = 832%nat ->
  be_member bs off_sliceCount 4 <= 64 ->
  (exists data, load h file (regular bs) = Done data
     /\ header data = take 16 bs
     /\ unknown data = take 7 (drop 16 bs))
  /\ (forall front, length front = 23%nat ->
        exists data, load h file (regular (front ++ drop 23 bs)) = Done data
          /\ header data = take 16 front)
  /\ (forall f what, load h file f = Throw what -> numBytes f <> 832).
Proof.
  intros L C. split; [|split].
  - rewrite load_regular by exact L.
    destruct (Z.leb_spec (be_member bs off_sliceCount 4) (Z.of_nat capacity))
      as [_|Gt]; [|unfold capacity in Gt; lia].
    eexists. split; [reflexivity|]. split; reflexivity.
  - intros front Lf.
    assert (L' : length (front ++ drop 23 bs) = sizeof_OTData).
    { rewrite length_app, length_drop, Lf, L. reflexivity. }
    assert (C' : be_member (front ++ drop 23 bs) off_sliceCount 4
                 = be_member bs off_sliceCount 4).
    { unfold be_member. f_equal.
      rewrite (bytes_at_later front _ 23) by (exact Lf || (vm_compute; lia)).
      unfold bytes_at. rewrite drop_drop. reflexivity. }
    rewrite load_regular by exact L'. rewrite C'.
    destruct (Z.leb_spec (be_member bs off_sliceCount 4) (Z.of_nat capacity))
      as [_|Gt]; [|unfold capacity in Gt; lia].
    eexists. split; [reflexivity|].
    cbn [header decoded]. unfold bytes_at, off_header. rewrite drop_0.
    rewrite take_app_le by lia. reflexivity.
  - intros f what E N. rewrite load_sized in E by exact N. cbv zeta in E.
    destruct (be_member (read f sizeof_OTData zeroed) off_sliceCount 4
              <=? Z.of_nat capacity); discriminate.
Qed.

(** A file of zero bytes throughout, which has no header at all. *)
Lemma load_ignores_header_witness :
  (exists data, load LittleEndian "z.ot" (regular (repeat x00 832)) = Done data
     /\ header data = take 16 (repeat x00 832)
     /\ unknown data = take 7 (drop 16 (repeat x00 832)))
  /\ (forall front, length front = 23%nat ->
        exists data,
          load LittleEndian "z.ot" (regular (front ++ drop 23 (repeat x00 832)))
          = Done data
          /\ header data = take 16 front)
  /\ (forall f what, load LittleEndian "z.ot" f = Throw what -> numBytes f <> 832).
Proof.
  apply (load_ignores_header LittleEndian "z.ot" (repeat x00 832)).
  - vm_compute. reflexivity.
  - vm_compute. discriminate.
Defined.

(** ** C2: counts beyond the capacity *)

(** C2, as stated, fails: no loop clamps the count.  On the record with
    count 70 the loop of [main] does not give 64 descriptors but indexes
    [slices[64]]; [load] does the same on the file of that record. *)
Lemma count_is_not_clamped :
  sliceCount (sample 70) = 70
  /\ length (slices (sample 70)) = 64%nat
  /\ extractSlices (sample 70) = OutOfBounds 64
  /\ load LittleEndian "a.ot" (regular (sample_file 70)) = OutOfBounds 64
  /\ ~ exists ds, extractSlices (sample 70) = Done ds /\ length ds = 64%nat.
Proof.
  split; [reflexivity|]. split; [reflexivity|].
  split; [vm_compute; reflexivity|]. split; [vm_compute; reflexivity|].
  intros (ds & E & _). vm_compute in E. discriminate.
Qed.

(** C2, amended: for every record whose count is within the capacity of
    64 entries, the loop of [main] ends normally with exactly
    [sliceCount] = min([sliceCount], 64) descriptors, never more, every
    one for an index below 64; ending normally, it has read no entry at
    an index of 64 or more. *)
Theorem extractSlices_within_capacity (data : OTData) :
  length (slices data) = 64%nat ->
  0 <= sliceCount data <= 64 ->
  exists ds, extractSlices data = Done ds
    /\ Z.of_nat (length ds) = Z.min (sliceCount data) 64
    /\ Forall (fun d => (Descriptor.index d < 64)%nat) ds.
Proof.
  intros L C. unfold extractSlices.
  destruct (slice_loop_done (Z.to_nat (sliceCount data)) 0 (slices data))
    as (ds & E & Len & Lk); [lia|].
  exists ds. split; [exact E|]. split; [lia|].
  apply Forall_lookup_2. intros k d Hd.
  assert (Hk : (k < Z.to_nat (sliceCount data))%nat).
  { rewrite <- Len. eapply lookup_lt_Some, Hd. }
  destruct (Lk k Hk) as (s & _ & Hd'). rewrite Hd in Hd'.
  injection Hd' as ->. cbn [Descriptor.index]. lia.
Qed.

Lemma extractSlices_within_capacity_witness :
  exists ds, extractSlices (sample 64) = Done ds
    /\ Z.of_nat (length ds) = Z.min (sliceCount (sample 64)) 64
    /\ Forall (fun d => (Descriptor.index d < 64)%nat) ds.
Proof.
  apply (extractSlices_within_capacity (sample 64)).
  - reflexivity.
  - simpl. lia.
Defined.

(** ** C8: order and content of the descriptors *)

(** C8: for every record that [load] returns, the loop of [main] ends
    normally with one descriptor per index below [sliceCount], in
    increasing order from index 0, the descriptor of index [k] holding
    the start and end point of [slices[k]] unchanged. *)
Theorem extractSlices_in_order
  (h : byte_order) (file : string) (f : file_state) (data : OTData) :
  load h file f = Done data ->
  exists ds, extractSlices data = Done ds
    /\ Z.of_nat (length ds) = sliceCount data
    /\ map Descriptor.index ds = seq 0 (length ds)
    /\ forall k, (k < length ds)%nat ->
         exists s, slices data !! k = Some s
           /\ ds !! k = Some (Descriptor.mk k (Slice.startPoint s)
                                            (Slice.endPoint s)).
Proof.
  intros E. apply load_Done_inv in E as (_ & -> & C).
  pose proof (be_member_nonneg (read f sizeof_OTData zeroed) off_sliceCount 4)
    as Pos.
  pose proof (decoded_slices_length h (read f sizeof_OTData zeroed)) as SL.
  set (data := decoded h (read f sizeof_OTData zeroed)) in *.
  change (0 <= sliceCount data) in Pos.
  unfold extractSlices.
  destruct (slice_loop_done (Z.to_nat (sliceCount data)) 0 (slices data))
    as (ds & Eds & Len & Lk).
  { rewrite SL. lia. }
  exists ds. split; [exact Eds|]. split; [lia|]. split.
  - apply list_eq. intros k.
    change (@map SliceDescriptor nat) with (@fmap list _ SliceDescriptor nat).
    rewrite list_lookup_fmap.
    destruct (decide (k < length ds)%nat) as [Hk|Hk].
    + destruct (Lk k) as (s & _ & Hd); [lia|].
      rewrite Hd, lookup_seq_lt by exact Hk. reflexivity.
    + rewrite lookup_seq_ge, lookup_ge_None_2 by lia. reflexivity.
  - intros k Hk. destruct (Lk k) as (s & Hs & Hd); [lia|].
    exists s. split; [exact Hs|exact Hd].
Qed.

Lemma extractSlices_in_order_witness :
  exists ds, extractSlices (sample 2) = Done ds
    /\ Z.of_nat (length ds) = sliceCount (sample 2)
    /\ map Descriptor.index ds = seq 0 (length ds)
    /\ forall k, (k < length ds)%nat ->
         exists s, slices (sample 2) !! k = Some s
           /\ ds !! k = Some (Descriptor.mk k (Slice.startPoint s)
                                            (Slice.endPoint s)).
Proof.
  apply (extractSlices_in_order LittleEndian "AmnKC.ot"
           (regular (sample_file 2)) (sample 2)).
  vm_compute. reflexivity.
Defined.

(** The scenario of the README: two slices, two lines. *)
Example two_slices :
  extractSlices (sample 2)
  = Done [Descriptor.mk 0 126 8872; Descriptor.mk 1 9000 15000]
  /\ map (sox_line "AmnKC" "AmnKC.wav")
       [Descriptor.mk 0 126 8872; Descriptor.mk 1 9000 15000]
     = ["AmnKC.wav AmnKC00.wav trim 126s =8872s ";
        "AmnKC.wav AmnKC01.wav trim 9000s =15000s "]%string.
Proof. split; reflexivity. Qed.

(** ** C10: the descriptors depend on the count and the counted slices only *)

(** C10: two records with the same [sliceCount] and the same entries of
    [slices] below it give the same descriptors, whatever their other
    members and their entries from [sliceCount] on are. *)
Theorem extractSlices_noninterference (d1 d2 : OTData) :
  sliceCount d1 = sliceCount d2 ->
  (forall i, Z.of_nat i < sliceCount d1 -> slices d1 !! i = slices d2 !! i) ->
  extractSlices d1 = extractSlices d2.
Proof.
  intros C Agree. unfold extractSlices. rewrite <- C.
  apply slice_loop_ext. intros j Hj. apply Agree. lia.
Qed.

Lemma extractSlices_noninterference_witness :
  extractSlices (sample 2) = extractSlices other_sample.
Proof.
  apply (extractSlices_noninterference (sample 2) other_sample).
  - reflexivity.
  - intros i Hi. change (sliceCount (sample 2)) with 2 in Hi.
    destruct i as [|[|i]]; [reflexivity|reflexivity|lia].
Defined.

(** ** C6: conversion to native order *)

(** C6: for every file of the size of the record with a count within the
    capacity, on a host of either byte order, [load] returns a record in
    which every scalar multi-byte member and every member of the counted
    slices holds the big-endian value of its bytes in the file; the tempo
    written as 00 00 05 A0 is read as 1440. *)
Theorem load_converts_to_native
  (h : byte_order) (file : string) (bs : list byte) :
  length bs = 832%nat ->
  be_member bs off_sliceCount 4 <= 64 ->
  exists data, load h file (regular bs) = Done data
    /\ tempo data = be_member bs off_tempo 4
    /\ trimLen data = be_member bs off_trimLen 4
    /\ loopLen data = be_member bs off_loopLen 4
    /\ stretch data = be_member bs off_stretch 4
    /\ loop data = be_member bs off_loop 4
    /\ gain data = be_member bs off_gain 2
    /\ trimStart data = be_member bs off_trimStart 4
    /\ trimEnd data = be_member bs off_trimEnd 4
    /\ loopPoint data = be_member bs off_loopPoint 4
    /\ sliceCount data = be_member bs off_sliceCount 4
    /\ checkSum data = be_member bs off_checkSum 2
    /\ (forall i, Z.of_nat i < sliceCount data ->
          slices data !! i = Some (be_slice bs i))
    /\ (forall a b c d, bytes_at bs off_tempo 4 = [a; b; c; d] ->
          tempo data = byte.unsigned a * 2 ^ 24 + byte.unsigned b * 2 ^ 16
                       + byte.unsigned c * 2 ^ 8 + byte.unsigned d)
    /\ (bytes_at bs off_tempo 4 = [x00; x00; x05; xa0] -> tempo data = 1440).
Proof.
  intros L C. rewrite load_regular by exact L.
  destruct (Z.leb_spec (be_member bs off_sliceCount 4) (Z.of_nat capacity))
    as [_|Gt]; [|unfold capacity in Gt; lia].
  exists (decoded h bs). split; [reflexivity|].
  do 11 (split; [reflexivity|]). split; [|split].
  - intros i Hi. rewrite decoded_slices_lookup.
    + destruct (Z.ltb_spec (Z.of_nat i) (sliceCount (decoded h bs)));
        [reflexivity|lia].
    + cbn [sliceCount decoded] in Hi. unfold capacity. lia.
  - intros a b c d E. cbn [tempo decoded]. unfold be_member.
    rewrite E. apply be_decode_4.
  - intros E. cbn [tempo decoded]. unfold be_member. rewrite E. reflexivity.
Qed.

Lemma load_converts_to_native_witness :
  exists data, load LittleEndian "AmnKC.ot" (regular (sample_file 2)) = Done data
    /\ tempo data = be_member (sample_file 2) off_tempo 4
    /\ trimLen data = be_member (sample_file 2) off_trimLen 4
    /\ loopLen data = be_member (sample_file 2) off_loopLen 4
    /\ stretch data = be_member (sample_file 2) off_stretch 4
    /\ loop data = be_member (sample_file 2) off_loop 4
    /\ gain data = be_member (sample_file 2) off_gain 2
    /\ trimStart data = be_member (sample_file 2) off_trimStart 4
    /\ trimEnd data = be_member (sample_file 2) off_trimEnd 4
    /\ loopPoint data = be_member (sample_file 2) off_loopPoint 4
    /\ sliceCount data = be_member (sample_file 2) off_sliceCount 4
    /\ checkSum data = be_member (sample_file 2) off_checkSum 2
    /\ (forall i, Z.of_nat i < sliceCount data ->
          slices data !! i = Some (be_slice (sample_file 2) i))
    /\ (forall a b c d, bytes_at (sample_file 2) off_tempo 4 = [a; b; c; d] ->
          tempo data = byte.unsigned a * 2 ^ 24 + byte.unsigned b * 2 ^ 16
                       + byte.unsigned c * 2 ^ 8 + byte.unsigned d)
    /\ (bytes_at (sample_file 2) off_tempo 4 = [x00; x00; x05; xa0] ->
          tempo data = 1440).
Proof.
  apply (load_converts_to_native LittleEndian "AmnKC.ot" (sample_file 2)).
  - vm_compute. reflexivity.
  - vm_compute. discriminate.
Defined.

(** The bytes of the sample file at the place of the tempo, and what both
    kinds of host make of them. *)
Example tempo_1440 :
  bytes_at (sample_file 2) off_tempo 4 = [x00; x00; x05; xa0]
  /\ (forall data, load LittleEndian "AmnKC.ot" (regular (sample_file 2)) = Done data ->
        tempo data = 1440)
  /\ (forall data, load BigEndian "AmnKC.ot" (regular (sample_file 2)) = Done data ->
        tempo data = 1440).
Proof.
  split; [vm_compute; reflexivity|].
  split; intros data E; vm_compute in E; injection E as <-; reflexivity.
Qed.

(** ** C7: slices from the count on stay as read *)

Lemma object_bytes_slice_member h buf i :
  (off_slice i + 12 <= length buf)%nat ->
  object_bytes_Slice h (slice_member h buf i) = bytes_at buf (off_slice i) 12.
Proof.
  intros L. unfold object_bytes_Slice, slice_member.
  cbn [Slice.startPoint Slice.endPoint Slice.loopPoint]. unfold member.
  assert (E : forall off, (off + 4 <= length buf)%nat ->
                mem_encode h 4 (mem_decode h (bytes_at buf off 4))
                = bytes_at buf off 4).
  { intros off Lo. rewrite <- (bytes_at_length buf off 4) at 1 by exact Lo.
    apply mem_encode_decode. }
  rewrite !E by lia.
  change (bytes_at buf (off_slice i) 12)
    with (bytes_at buf (off_slice i) (4 + (4 + 4))).
  rewrite !bytes_at_add. do 3 f_equal. lia.
Qed.

(** C7: in every record that [load] returns, exactly the entries of
    [slices] at the indices below the converted [sliceCount] have been
    passed through [ntohl]; an entry at an index from [sliceCount] on is
    the raw entry, its bytes in memory being the 12 bytes read from the
    file. *)
Theorem load_converts_counted_slices_only
  (h : byte_order) (file : string) (bs : list byte) (data : OTData) (i : nat) :
  load h file (regular bs) = Done data ->
  (i < 64)%nat ->
  exists s, slices data !! i = Some s
    /\ (Z.of_nat i < sliceCount data ->
          s = ntoh_Slice h (slice_member h bs i) /\ s = be_slice bs i)
    /\ (sliceCount data <= Z.of_nat i ->
          s = slice_member h bs i
          /\ object_bytes_Slice h s = bytes_at bs (off_slice i) 12).
Proof.
  intros E Hi. apply load_regular_Done_inv in E as (L & -> & _).
  assert (Li : (off_slice i + 12 <= length bs)%nat).
  { rewrite L, off_slice_eq. change sizeof_OTData with 832%nat. lia. }
  eexists. split; [apply decoded_slices_lookup; exact Hi|].
  destruct (Z.ltb_spec (Z.of_nat i) (sliceCount (decoded h bs))) as [Lt|Ge].
  - split; [|lia]. intros _. split; [|reflexivity].
    symmetry. apply ntoh_Slice_member, Li.
  - split; [lia|]. intros _. split; [reflexivity|].
    apply object_bytes_slice_member, Li.
Qed.

Lemma load_converts_counted_slices_only_witness :
  exists s, slices (sample 2) !! 5%nat = Some s
    /\ (Z.of_nat 5 < sliceCount (sample 2) ->
          s = ntoh_Slice LittleEndian (slice_member LittleEndian (sample_file 2) 5)
          /\ s = be_slice (sample_file 2) 5)
    /\ (sliceCount (sample 2) <= Z.of_nat 5 ->
          s = slice_member LittleEndian (sample_file 2) 5
          /\ object_bytes_Slice LittleEndian s
             = bytes_at (sample_file 2) (off_slice 5) 12).
Proof.
  apply (load_converts_counted_slices_only LittleEndian "AmnKC.ot"
           (sample_file 2) (sample 2) 5).
  - vm_compute. reflexivity.
  - lia.
Defined.

(** A file with one slice counted and a second one behind it: on a
    little-endian host the first is converted, the second keeps the file's
    bytes and so reads as the byte-reversed numbers. *)
Example uncounted_slice_stays_raw :
  exists data, load LittleEndian "a.ot" (regular (sample_file 1)) = Done data
    /\ slices data !! 0%nat = Some (Slice.mk 126 8872 0)
    /\ slices data !! 1%nat = Some (Slice.mk 0x28230000 0x983A0000 0).
Proof. eexists. split; [vm_compute; reflexivity|]. split; reflexivity. Qed.

(** ** C3: round trip *)

(** C3, as stated, fails: a record cut to 830 bytes is refused by the
    gate, so that nothing of it is read back. *)
Lemma record_of_830_bytes_is_refused :
  length (take 830 (serialize (sample 2))) = 830%nat
  /\ load LittleEndian "a.ot" (regular (take 830 (serialize (sample 2))))
     = Throw "a.ot This is not a valid .ot file"
  /\ ~ exists r, load LittleEndian "a.ot" (regular (take 830 (serialize (sample 2))))
                 = Done r /\ tempo r = tempo (sample 2).
Proof.
  split; [vm_compute; reflexivity|]. split; [vm_compute; reflexivity|].
  intros (r & E & _). vm_compute in E. discriminate.
Qed.

(** C3, amended: a record whose members fit their types and whose count
    is at most 64 is written as 832 bytes, and [load] reads back from
    them, on a host of either byte order, every scalar member and the
    three members of every slice below the count. *)
Theorem load_serialize_round_trip
  (h : byte_order) (file : string) (data : OTData) :
  wf_OTData data ->
  sliceCount data <= 64 ->
  length (serialize data) = 832%nat
  /\ exists r, load h file (regular (serialize data)) = Done r
       /\ header r = header data
       /\ unknown r = unknown data
       /\ tempo r = tempo data
       /\ trimLen r = trimLen data
       /\ loopLen r = loopLen data
       /\ stretch r = stretch data
       /\ loop r = loop data
       /\ gain r = gain data
       /\ quantize r = quantize data
       /\ trimStart r = trimStart data
       /\ trimEnd r = trimEnd data
       /\ loopPoint r = loopPoint data
       /\ sliceCount r = sliceCount data
       /\ checkSum r = checkSum data
       /\ forall i s, Z.of_nat i < sliceCount data ->
            slices data !! i = Some s -> slices r !! i = Some s.
Proof.
  intros WF C. pose proof (serialize_length data WF) as L.
  split; [exact L|]. rewrite load_regular by exact L.
  assert (SC : be_member (serialize data) off_sliceCount 4 = sliceCount data).
  { unfold be_member. rewrite serialize_sliceCount by exact WF.
    apply (be_decode_encode 4), WF. }
  rewrite SC.
  destruct (Z.leb_spec (sliceCount data) (Z.of_nat capacity))
    as [_|Gt]; [|unfold capacity in Gt; lia].
  exists (decoded h (serialize data)). split; [reflexivity|].
  cbn [header unknown tempo trimLen loopLen stretch loop gain quantize
       trimStart trimEnd loopPoint sliceCount checkSum decoded].
  unfold be_member, member.
  rewrite serialize_header, serialize_unknown, serialize_tempo,
    serialize_trimLen, serialize_loopLen, serialize_stretch, serialize_loop,
    serialize_gain, serialize_quantize, serialize_trimStart,
    serialize_trimEnd, serialize_loopPoint, serialize_sliceCount,
    serialize_checkSum by exact WF.
  destruct WF as [? ? ? ? ? ? ? ? ? ? ? ? SLen SWf ? ?].
  do 2 (split; [reflexivity|]).
  do 5 (split; [apply (be_decode_encode 4); assumption|]).
  split; [apply (be_decode_encode 2); assumption|].
  split; [apply mem_decode_be_encode_1; assumption|].
  do 4 (split; [apply (be_decode_encode 4); assumption|]).
  split; [apply (be_decode_encode 2); assumption|].
  intros i s Hi Hs.
  assert (Hc : (i < capacity)%nat) by (unfold capacity; lia).
  rewrite decoded_slices_lookup by exact Hc. f_equal.
  cbn [sliceCount decoded]. fold (be_member (serialize data) off_sliceCount 4).
  rewrite SC. destruct (Z.ltb_spec (Z.of_nat i) (sliceCount data)); [|lia].
  pose proof (proj1 (Forall_lookup _ _) SWf i s Hs) as (Ws & We & Wl).
  assert (WF' : wf_OTData data) by (constructor; assumption).
  destruct (serialize_Slice_members s) as (Ms & Me & Ml).
  destruct s as [st en lp]. unfold be_slice, be_member. f_equal.
  - rewrite <- (Nat.add_0_r (off_slice i)).
    rewrite (serialize_slice data WF' i _ 0 4 Hs) by (vm_compute; lia).
    rewrite Ms. apply (be_decode_encode 4), Ws.
  - rewrite (serialize_slice data WF' i _ 4 4 Hs) by (vm_compute; lia).
    rewrite Me. apply (be_decode_encode 4), We.
  - rewrite (serialize_slice data WF' i _ 8 4 Hs) by (vm_compute; lia).
    rewrite Ml. apply (be_decode_encode 4), Wl.
Qed.

Lemma sample_wf : wf_OTData (sample 2).
Proof.
  constructor; try reflexivity;
    try (unfold u32, u16, u8; cbn [sample tempo trimLen loopLen stretch loop
           gain quantize trimStart trimEnd loopPoint sliceCount checkSum]; lia).
  cbn [slices sample]. unfold sample_slices. apply Forall_app. split.
  - repeat constructor; cbn; lia.
  - apply List.Forall_forall. intros s Hs. apply repeat_spec in Hs. subst s.
    repeat constructor; cbn; lia.
Defined.

Lemma load_serialize_round_trip_witness :
  length (serialize (sample 2)) = 832%nat
  /\ exists r, load BigEndian "AmnKC.ot" (regular (serialize (sample 2))) = Done r
       /\ header r = header (sample 2)
       /\ unknown r = unknown (sample 2)
       /\ tempo r = tempo (sample 2)
       /\ trimLen r = trimLen (sample 2)
       /\ loopLen r = loopLen (sample 2)
       /\ stretch r = stretch (sample 2)
       /\ loop r = loop (sample 2)
       /\ gain r = gain (sample 2)
       /\ quantize r = quantize (sample 2)
       /\ trimStart r = trimStart (sample 2)
       /\ trimEnd r = trimEnd (sample 2)
       /\ loopPoint r = loopPoint (sample 2)
       /\ sliceCount r = sliceCount (sample 2)
       /\ checkSum r = checkSum (sample 2)
       /\ forall i s, Z.of_nat i < sliceCount (sample 2) ->
            slices (sample 2) !! i = Some s -> slices r !! i = Some s.
Proof.
  apply (load_serialize_round_trip BigEndian "AmnKC.ot" (sample 2)).
  - exact sample_wf.
  - simpl. lia.
Defined.

(** ** C4: a failed load in a run over several files *)

(** C4, as stated, fails: with a first file that does not load, [main]
    does not go on to the second one, whose two lines are not printed; the
    exception ends the process. *)
Lemma failed_load_ends_the_run :
  main LittleEndian two_files ["bad.ot"; "good.ot"]%string
  = {| events := [];
       status := terminated "bad.ot This is not a valid .ot file" |}
  /\ main LittleEndian two_files ["good.ot"]%string
     = {| events := [cout "good.wav good00.wav trim 126s =8872s ";
                     cout "good.wav good01.wav trim 9000s =15000s "];
          status := returned 0 |}.
Proof. split; vm_compute; reflexivity. Qed.

(** C4, amended: [load] reports a failure by throwing
    [std::runtime_error], which a caller can catch; [main], its only
    caller, has no handler.  In a run over several files, the first
    [.ot] file whose [load] throws ends the process through
    [std::terminate]: the lines of the files before it have been printed,
    the files after it are not processed.  Only arguments that do not end
    in [.ot] are skipped. *)
Theorem main_stops_at_failed_load
  (h : byte_order) (fs : string -> file_state)
  (before : list string) (file : string) (later : list string) (what : string) :
  status (main_loop h fs before) = returned 0 ->
  not_ot file = false ->
  load h file (fs file) = Throw what ->
  main h fs (before ++ file :: later)
  = {| events := events (main_loop h fs before); status := terminated what |}.
Proof.
  intros Ok Ot E.
  assert (M : main h fs (before ++ file :: later)
              = main_loop h fs (before ++ file :: later)).
  { destruct before; reflexivity. }
  rewrite M. clear M. induction before as [|a before IH].
  - cbn [app main_loop]. rewrite Ot, E. reflexivity.
  - cbn [app main_loop] in *.
    destruct (not_ot a).
    + cbn [after status events] in *. rewrite (IH Ok). reflexivity.
    + destruct (load h a (fs a)) as [data| |]; try discriminate.
      destruct (extractSlices data) as [ds| |]; try discriminate.
      cbn [after status events] in *. rewrite (IH Ok). reflexivity.
Qed.

Lemma main_stops_at_failed_load_witness :
  main BigEndian two_files
    (["good.ot"%string; "notes.txt"%string] ++ "bad.ot"%string :: ["good.ot"%string])
  = {| events := events (main_loop BigEndian two_files ["good.ot"; "notes.txt"]%string);
       status := terminated "bad.ot This is not a valid .ot file" |}.
Proof.
  apply (main_stops_at_failed_load BigEndian two_files
           ["good.ot"; "notes.txt"]%string "bad.ot" ["good.ot"%string]).
  - vm_compute. reflexivity.
  - vm_compute. reflexivity.
  - vm_compute. reflexivity.
Defined.

(** What such a run has printed by the time it ends: the lines of the
    good file and the notice for the argument that is no [.ot] file. *)
Example lines_before_the_failure :
  events (main_loop BigEndian two_files ["good.ot"; "notes.txt"]%string)
  = [cout "good.wav good00.wav trim 126s =8872s ";
     cout "good.wav good01.wav trim 9000s =15000s ";
     cerr "Skipping notes.txt: Only .ot files are supported."].
Proof. vm_compute. reflexivity. Qed.

(** * Further properties of [main] and [load] *)

(** ** Strings *)

Lemma string_length_append (a b : string) :
  String.length (a ++ b) = (String.length a + String.length b)%nat.
Proof. induction a as [|c a IH]; simpl; [reflexivity|]. rewrite IH. reflexivity. Qed.

Lemma substring_append_front (a b : string) :
  substring 0 (String.length a) (a ++ b) = a.
Proof.
  induction a as [|c a IH]; simpl.
  - destruct b; reflexivity.
  - rewrite IH. reflexivity.
Qed.

Lemma substring_append_back (a b : string) n :
  substring (String.length a) n (a ++ b) = substring 0 n b.
Proof. induction a as [|c a IH]; simpl; [reflexivity|exact IH]. Qed.

Lemma substring_all (b : string) : substring 0 (String.length b) b = b.
Proof. induction b as [|c b IH]; simpl; [reflexivity|]. rewrite IH. reflexivity. Qed.

Lemma substring_split (s : string) : forall n,
  (n <= String.length s)%nat ->
  s = (substring 0 n s ++ substring n (String.length s - n) s)%string.
Proof.
  induction s as [|c s IH]; intros n L.
  - simpl in L. assert (n = 0%nat) as -> by lia. reflexivity.
  - destruct n as [|n].
    + cbn [substring String.append]. simpl String.length.
      rewrite Nat.sub_0_r. cbn [substring]. rewrite substring_all. reflexivity.
    + simpl in L. cbn [substring String.append]. simpl String.length.
      cbn [Nat.sub]. rewrite <- IH by lia. reflexivity.
Qed.

Lemma append_inv_head (a b c : string) : (a ++ b)%string = (a ++ c)%string -> b = c.
Proof.
  induction a as [|x a IH]; simpl; intros E; [exact E|].
  injection E as E. exact (IH E).
Qed.

(** ** Which arguments [main] takes for [.ot] files *)

(** An argument is processed exactly when it is some name followed by
    [.ot]; the name may be empty. *)
Theorem not_ot_false_iff (settingsFile : string) :
  not_ot settingsFile = false <-> exists name, settingsFile = (name ++ ".ot")%string.
Proof.
  unfold not_ot. split.
  - intros E. apply Bool.orb_false_iff in E as [Len Suf].
    apply Nat.ltb_ge in Len. apply Bool.negb_false_iff, String.eqb_eq in Suf.
    exists (substring 0 (String.length settingsFile - 3) settingsFile).
    pose proof (substring_split settingsFile (String.length settingsFile - 3)) as S.
    replace (String.length settingsFile - (String.length settingsFile - 3))%nat
      with 3%nat in S by lia.
    rewrite Suf in S. apply S. lia.
  - intros [name ->]. rewrite string_length_append. simpl String.length.
    replace (String.length name + 3 - 3)%nat with (String.length name) by lia.
    rewrite substring_append_back.
    destruct (Nat.ltb_spec (String.length name + 3) 3); [lia|]. reflexivity.
Qed.

(** The name that the lines are built from is the argument without its
    last three characters. *)
Lemma name_of_ot (name : string) :
  substring 0 (String.length (name ++ ".ot") - 3) (name ++ ".ot") = name.
Proof.
  rewrite string_length_append. simpl String.length.
  replace (String.length name + 3 - 3)%nat with (String.length name) by lia.
  apply substring_append_front.
Qed.

(** ** One argument of [main] *)

Lemma after_nil r : after [] r = r.
Proof. destruct r. reflexivity. Qed.

Lemma after_app evs1 evs2 r : after (evs1 ++ evs2) r = after evs1 (after evs2 r).
Proof. unfold after. cbn [events status]. rewrite app_assoc. reflexivity. Qed.

(** The loop of [main] in closed form, when the entries it walks over are
    known. *)
Lemma slice_loop_closed n : forall i (sl : list Slice) (g : nat -> Slice),
  (forall k, (i <= k < i + n)%nat -> sl !! k = Some (g k)) ->
  slice_loop n i sl
  = Done (map (fun k => Descriptor.mk k (Slice.startPoint (g k))
                                      (Slice.endPoint (g k))) (seq i n)).
Proof.
  induction n as [|n IH]; intros i sl g G; cbn [slice_loop seq map];
    [reflexivity|].
  rewrite (G i) by lia. rewrite (IH (S i) sl g) by (intros k Hk; apply G; lia).
  reflexivity.
Qed.

Lemma extractSlices_decoded h buf :
  be_member buf off_sliceCount 4 <= Z.of_nat capacity ->
  extractSlices (decoded h buf)
  = Done (map (be_descriptor buf)
            (seq 0 (Z.to_nat (be_member buf off_sliceCount 4)))).
Proof.
  intros C. unfold extractSlices.
  rewrite (slice_loop_closed _ 0 _ (be_slice buf)).
  - reflexivity.
  - intros k Hk. cbn [sliceCount decoded] in Hk.
    rewrite decoded_slices_lookup by lia.
    cbn [sliceCount decoded].
    destruct (Z.ltb_spec (Z.of_nat k) (be_member buf off_sliceCount 4));
      [reflexivity|lia].
Qed.

(** What [main] does with one argument that ends in [.ot], read off the
    stream and the bytes that the read leaves in the record. *)
Lemma main_loop_ot h fs settingsFile rest :
  not_ot settingsFile = false ->
  main_loop h fs (settingsFile :: rest) =
    if numBytes (fs settingsFile) =? Z.of_nat sizeof_OTData then
      let buf := read (fs settingsFile) sizeof_OTData zeroed in
      let name :=
        substring 0 (String.length settingsFile - 3) settingsFile in
      if be_member buf off_sliceCount 4 <=? Z.of_nat capacity then
        after (map (fun k => cout (sox_line name (name ++ ".wav")
                                     (be_descriptor buf k)))
                 (seq 0 (Z.to_nat (be_member buf off_sliceCount 4))))
              (main_loop h fs rest)
      else {| events := []; status := undefined capacity |}
    else {| events := []; status := terminated (not_valid settingsFile) |}.
Proof.
  intros Ot. cbn [main_loop]. rewrite Ot.
  destruct (Z.eqb_spec (numBytes (fs settingsFile)) (Z.of_nat sizeof_OTData))
    as [N|N].
  - rewrite load_sized by exact N. cbv zeta.
    destruct (Z.leb_spec (be_member (read (fs settingsFile) sizeof_OTData zeroed)
                            off_sliceCount 4) (Z.of_nat capacity)) as [C|C];
      [|reflexivity].
    rewrite extractSlices_decoded by exact C.
    rewrite map_map. reflexivity.
  - rewrite load_gate by exact N. reflexivity.
Qed.

Lemma main_loop_skip h fs settingsFile rest :
  not_ot settingsFile = true ->
  main_loop h fs (settingsFile :: rest)
  = after [skipping settingsFile] (main_loop h fs rest).
Proof. intros Ot. cbn [main_loop]. rewrite Ot. reflexivity. Qed.

(** [load] returns exactly on the files of the right length with a count
    within the capacity. *)
Lemma load_Done_iff h file f :
  (exists data, load h file f = Done data)
  <-> numBytes f = Z.of_nat sizeof_OTData
      /\ be_member (read f sizeof_OTData zeroed) off_sliceCount 4
         <= Z.of_nat capacity.
Proof.
  split.
  - intros [data E]. apply load_Done_inv in E as (N & -> & C).
    split; [exact N|exact C].
  - intros [N C]. rewrite load_sized by exact N. cbv zeta.
    destruct (Z.leb_spec (be_member (read f sizeof_OTData zeroed)
                            off_sliceCount 4) (Z.of_nat capacity));
      [eexists; reflexivity|lia].
Qed.

(** ** A run of [main] over its arguments *)

(** From the file [name.ot] of 832 bytes with a count [c] of at most 64,
    [main] prints [c] lines, in the order of the slices; line [k] names
    [name.wav], the output file of slice [k], and the big-endian values
    of the start and end point at the place of slice [k] in the file.
    Then it goes on with the other arguments. *)
Theorem main_prints_slices_of_file
  (h : byte_order) (fs : string -> file_state)
  (name : string) (bs : list byte) (rest : list string) :
  fs (name ++ ".ot")%string = regular bs ->
  length bs = 832%nat ->
  be_member bs off_sliceCount 4 <= 64 ->
  main h fs ((name ++ ".ot")%string :: rest)
  = after (map (fun k => cout (sox_line name (name ++ ".wav") (be_descriptor bs k)))
             (seq 0 (Z.to_nat (be_member bs off_sliceCount 4))))
          (main_loop h fs rest).
Proof.
  intros F L C. cbn [main].
  rewrite main_loop_ot by (apply not_ot_false_iff; eexists; reflexivity).
  rewrite F, numBytes_regular, L. cbv zeta.
  change (Z.of_nat 832 =? Z.of_nat sizeof_OTData) with true. cbv iota.
  rewrite name_of_ot.
  replace (read (regular bs) sizeof_OTData zeroed) with bs.
  - destruct (Z.leb_spec (be_member bs off_sliceCount 4) (Z.of_nat capacity))
      as [_|Gt]; [reflexivity|unfold capacity in Gt; lia].
  - symmetry. rewrite <- zeroed_length. apply read_regular.
    rewrite zeroed_length. exact L.
Qed.

Lemma main_prints_slices_of_file_witness :
  main LittleEndian two_files (("good" ++ ".ot")%string :: ["notes.txt"%string])
  = after (map (fun k => cout (sox_line "good" ("good" ++ ".wav")
                                 (be_descriptor (sample_file 2) k)))
             (seq 0 (Z.to_nat (be_member (sample_file 2) off_sliceCount 4))))
          (main_loop LittleEndian two_files ["notes.txt"%string]).
Proof.
  apply (main_prints_slices_of_file LittleEndian two_files "good"
           (sample_file 2) ["notes.txt"%string]).
  - reflexivity.
  - vm_compute. reflexivity.
  - vm_compute. discriminate.
Defined.

(** A file whose count is 0 gives no line and no error: the run goes on
    as if the argument were not there. *)
Theorem main_file_without_slices
  (h : byte_order) (fs : string -> file_state)
  (name : string) (bs : list byte) (rest : list string) :
  fs (name ++ ".ot")%string = regular bs ->
  length bs = 832%nat ->
  be_member bs off_sliceCount 4 = 0 ->
  main h fs ((name ++ ".ot")%string :: rest) = main_loop h fs rest.
Proof.
  intros F L C. cbn [main].
  rewrite main_loop_ot by (apply not_ot_false_iff; eexists; reflexivity).
  rewrite F, numBytes_regular, L. cbv zeta.
  change (Z.of_nat 832 =? Z.of_nat sizeof_OTData) with true. cbv iota.
  replace (read (regular bs) sizeof_OTData zeroed) with bs.
  - rewrite C. cbn [Z.leb Z.compare Z.of_nat capacity Z.to_nat seq map].
    apply after_nil.
  - symmetry. rewrite <- zeroed_length. apply read_regular.
    rewrite zeroed_length. exact L.
Qed.

Lemma main_file_without_slices_witness :
  main BigEndian (fun _ => regular (sample_file 0))
    (("empty" ++ ".ot")%string :: ["notes.txt"%string])
  = main_loop BigEndian (fun _ => regular (sample_file 0)) ["notes.txt"%string].
Proof.
  apply (main_file_without_slices BigEndian (fun _ => regular (sample_file 0))
           "empty" (sample_file 0) ["notes.txt"%string]).
  - reflexivity.
  - vm_compute. reflexivity.
  - vm_compute. reflexivity.
Defined.

Lemma main_loop_host h1 h2 fs args : main_loop h1 fs args = main_loop h2 fs args.
Proof.
  induction args as [|a rest IH]; [reflexivity|].
  destruct (not_ot a) eqn:Ot.
  - rewrite !main_loop_skip by exact Ot. rewrite IH. reflexivity.
  - rewrite !main_loop_ot by exact Ot. rewrite IH. reflexivity.
Qed.

(** What a run prints and how it ends does not depend on the byte order
    of the host. *)
Theorem main_host_independent
  (h1 h2 : byte_order) (fs : string -> file_state) (args : list string) :
  main h1 fs args = main h2 fs args.
Proof.
  destruct args as [|a rest]; [reflexivity|]. apply main_loop_host.
Qed.

Lemma status_after evs r : status (after evs r) = status r.
Proof. reflexivity. Qed.

Lemma main_loop_returns_iff h fs args :
  status (main_loop h fs args) = returned 0
  <-> Forall (fun a => not_ot a = true \/ exists data, load h a (fs a) = Done data)
        args.
Proof.
  induction args as [|a rest IH]; [split; [constructor|reflexivity]|].
  rewrite Forall_cons, <- IH. clear IH.
  destruct (not_ot a) eqn:Ot.
  - rewrite main_loop_skip, status_after by exact Ot. tauto.
  - rewrite main_loop_ot by exact Ot. rewrite load_Done_iff.
    destruct (Z.eqb_spec (numBytes (fs a)) (Z.of_nat sizeof_OTData)) as [N|N].
    + cbv zeta.
      destruct (Z.leb_spec (be_member (read (fs a) sizeof_OTData zeroed)
                              off_sliceCount 4) (Z.of_nat capacity)) as [C|C].
      * rewrite status_after. tauto.
      * cbn [status]. split; [discriminate|].
        intros [[Hf|[_ Hc]] _]; [discriminate|lia].
    + cbn [status]. split; [discriminate|].
      intros [[Hf|[Hn _]] _]; [discriminate|contradiction].
Qed.

(** [main] returns 0 exactly when it has arguments and [load] returns on
    every one of them that ends in [.ot]. *)
Theorem main_returns_0_iff
  (h : byte_order) (fs : string -> file_state) (args : list string) :
  status (main h fs args) = returned 0
  <-> args <> []
      /\ Forall (fun a => not_ot a = true \/ exists data, load h a (fs a) = Done data)
           args.
Proof.
  destruct args as [|a rest].
  - cbn [main status]. split; [discriminate|]. intros [N _]. contradiction.
  - cbn [main]. rewrite main_loop_returns_iff. split.
    + intros F. split; [discriminate|exact F].
    + intros [_ F]. exact F.
Qed.

Lemma main_loop_code h fs args c :
  status (main_loop h fs args) = returned c -> c = 0.
Proof.
  induction args as [|a rest IH]; cbn [main_loop].
  - intros E. injection E as <-. reflexivity.
  - destruct (not_ot a); [exact IH|].
    destruct (load h a (fs a)) as [data| |]; try discriminate.
    destruct (extractSlices data) as [ds| |]; try discriminate. exact IH.
Qed.

(** The exit code 1 stands for a call without arguments and nothing else;
    no other code than 0 and 1 is returned. *)
Theorem main_exit_code
  (h : byte_order) (fs : string -> file_state) (args : list string) :
  (status (main h fs args) = returned 1 <-> args = [])
  /\ forall c, status (main h fs args) = returned c -> c = 0 \/ c = 1.
Proof.
  destruct args as [|a rest].
  - split; [split; reflexivity|]. intros c E. injection E as <-. right. reflexivity.
  - cbn [main]. split.
    + split; [|discriminate]. intros E. apply main_loop_code in E. discriminate.
    + intros c E. left. eapply main_loop_code, E.
Qed.

(** The files are handled one after the other without any state kept
    between them: a run over [xs ++ ys] is the run over [xs], followed,
    if that one comes to its end, by the run over [ys]. *)
Theorem main_loop_app
  (h : byte_order) (fs : string -> file_state) (xs ys : list string) :
  main_loop h fs (xs ++ ys)
  = match status (main_loop h fs xs) with
    | returned _ => after (events (main_loop h fs xs)) (main_loop h fs ys)
    | _ => main_loop h fs xs
    end.
Proof.
  induction xs as [|a xs IH].
  - cbn [app main_loop status events]. symmetry. apply after_nil.
  - cbn [app main_loop].
    destruct (not_ot a).
    + rewrite IH. cbn [after status events].
      destruct (status (main_loop h fs xs)); cbn [app]; reflexivity.
    + destruct (load h a (fs a)) as [data| |]; try reflexivity.
      destruct (extractSlices data) as [ds| |]; try reflexivity.
      rewrite IH. cbn [after status events].
      destruct (status (main_loop h fs xs)); [|reflexivity|reflexivity].
      unfold after. cbn [events status]. rewrite app_assoc. reflexivity.
Qed.

(** [main] opens no file but those named by an argument that ends in
    [.ot]: what the other paths hold has no effect on the run. *)
Theorem main_opens_ot_files_only
  (h : byte_order) (fs1 fs2 : string -> file_state) (args : list string) :
  (forall a, In a args -> not_ot a = false -> fs1 a = fs2 a) ->
  main h fs1 args = main h fs2 args.
Proof.
  intros Agree. destruct args as [|a0 rest0]; [reflexivity|]. cbn [main].
  revert Agree. generalize (a0 :: rest0). clear a0 rest0.
  intros args. induction args as [|a rest IH]; intros Agree; [reflexivity|].
  assert (IH' : main_loop h fs1 rest = main_loop h fs2 rest).
  { apply IH. intros b Hb. apply Agree. right. exact Hb. }
  destruct (not_ot a) eqn:Ot.
  - rewrite !main_loop_skip by exact Ot. rewrite IH'. reflexivity.
  - rewrite !main_loop_ot by exact Ot.
    rewrite (Agree a (or_introl eq_refl) Ot), IH'. reflexivity.
Qed.

Lemma main_opens_ot_files_only_witness :
  main LittleEndian two_files ["good.ot"%string; "good.txt"%string]
  = main LittleEndian (fun _ => regular (sample_file 2))
      ["good.ot"%string; "good.txt"%string].
Proof.
  apply (main_opens_ot_files_only LittleEndian two_files
           (fun _ => regular (sample_file 2))
           ["good.ot"%string; "good.txt"%string]).
  intros a [<-|[<-|[]]] Ot.
  - reflexivity.
  - vm_compute in Ot. discriminate Ot.
Defined.

(** When no argument ends in [.ot], the run writes one notice for each
    argument, in their order, prints no line and returns 0. *)
Theorem main_skips_other_files
  (h : byte_order) (fs : string -> file_state) (args : list string) :
  args <> [] ->
  Forall (fun a => not_ot a = true) args ->
  main h fs args = {| events := map skipping args; status := returned 0 |}.
Proof.
  intros N F. destruct args as [|a0 rest0]; [contradiction|]. cbn [main].
  clear N. induction F as [|a rest Ot _ IH]; [reflexivity|].
  rewrite main_loop_skip by exact Ot. rewrite IH. reflexivity.
Qed.

Lemma main_skips_other_files_witness :
  main LittleEndian two_files ["a.wav"%string; "ot"%string; "b.OT"%string]
  = {| events := map skipping ["a.wav"%string; "ot"%string; "b.OT"%string];
       status := returned 0 |}.
Proof.
  apply (main_skips_other_files LittleEndian two_files
           ["a.wav"%string; "ot"%string; "b.OT"%string]).
  - discriminate.
  - repeat constructor.
Defined.

(** ** The names of the output files *)

Lemma append_inv_tail (a : string) : forall b c : string,
  (a ++ c)%string = (b ++ c)%string -> a = b.
Proof.
  induction a as [|x a IH]; intros [|y b] c E; cbn [String.append] in E.
  - reflexivity.
  - apply (f_equal String.length) in E. simpl in E.
    rewrite string_length_append in E. lia.
  - apply (f_equal String.length) in E. simpl in E.
    rewrite string_length_append in E. lia.
  - injection E as -> E. f_equal. exact (IH _ _ E).
Qed.

Lemma two_digits_table :
  forallb (fun i =>
    (String.length (setw_setfill 2 "0" (decimal (Z.of_nat i))) =? 2)%nat
    && forallb (fun j =>
         implb (String.eqb (setw_setfill 2 "0" (decimal (Z.of_nat i)))
                           (setw_setfill 2 "0" (decimal (Z.of_nat j))))
               (i =? j)%nat) (seq 0 100)) (seq 0 100) = true.
Proof. vm_compute. reflexivity. Qed.

(** Up to index 99 the index is written with two digits: the name of the
    output file is six characters longer than the name of the take. *)
Theorem output_name_length (name : string) (i : nat) :
  (i < 100)%nat ->
  String.length (output_name name i) = (String.length name + 6)%nat.
Proof.
  intros Hi. pose proof two_digits_table as T.
  rewrite forallb_forall in T. specialize (T i).
  rewrite in_seq in T. specialize (T ltac:(lia)).
  apply andb_prop in T as [Len _]. apply Nat.eqb_eq in Len.
  unfold output_name. rewrite !string_length_append, Len. reflexivity.
Qed.

Lemma output_name_length_witness :
  String.length (output_name "AmnKC" 7) = (String.length "AmnKC" + 6)%nat.
Proof. apply (output_name_length "AmnKC" 7). lia. Defined.

(** Different slices of a take go to different output files, so that no
    line of a file overwrites what another line of it writes. *)
Theorem output_names_distinct (name : string) (i j : nat) :
  (i < 100)%nat -> (j < 100)%nat -> i <> j ->
  output_name name i <> output_name name j.
Proof.
  intros Hi Hj Ne E. apply Ne. unfold output_name in E.
  apply append_inv_head, append_inv_tail in E.
  pose proof two_digits_table as T.
  rewrite forallb_forall in T. specialize (T i).
  rewrite in_seq in T. specialize (T ltac:(lia)).
  apply andb_prop in T as [_ T].
  rewrite forallb_forall in T. specialize (T j).
  rewrite in_seq in T. specialize (T ltac:(lia)).
  rewrite E, String.eqb_refl in T. apply Nat.eqb_eq. exact T.
Qed.

Lemma output_names_distinct_witness :
  output_name "AmnKC" 3 <> output_name "AmnKC" 12.
Proof. apply (output_names_distinct "AmnKC" 3 12); lia. Defined.

(** The line of a slice is made of the input name, the output name of
    its index, and its two points. *)
Lemma sox_line_output_name name input d :
  sox_line name input d
  = (input ++ " " ++ output_name name (Descriptor.index d) ++ " " ++ "trim "
       ++ decimal (Descriptor.startPoint d) ++ "s "
       ++ "=" ++ decimal (Descriptor.endPoint d) ++ "s ")%string.
Proof. reflexivity. Qed.

(** ** The record that [load] returns *)

Lemma mem_decode_range h bs :
  0 <= mem_decode h bs < 2 ^ (8 * Z.of_nat (length bs)).
Proof.
  destruct h; simpl.
  - apply le_combine_bound.
  - rewrite <- (length_rev bs). apply le_combine_bound.
Qed.

Lemma member_range h buf off n :
  (off + n <= length buf)%nat ->
  0 <= member h buf off n < 2 ^ (8 * Z.of_nat n).
Proof.
  intros L. unfold member. rewrite <- (bytes_at_length buf off n L) at 3.
  apply mem_decode_range.
Qed.

Lemma slice_member_wf h buf i :
  (off_slice i + 12 <= length buf)%nat -> wf_Slice (slice_member h buf i).
Proof.
  intros L. unfold wf_Slice, slice_member, u32.
  cbn [Slice.startPoint Slice.endPoint Slice.loopPoint].
  repeat split; apply (member_range h buf _ 4); lia.
Qed.

Lemma decoded_wf h buf : length buf = sizeof_OTData -> wf_OTData (decoded h buf).
Proof.
  intros L.
  assert (B : forall off n, (off + n <= 832)%nat -> (off + n <= length buf)%nat).
  { intros off n Hn. rewrite L. exact Hn. }
  constructor; cbn [header unknown tempo trimLen loopLen stretch loop gain
    quantize trimStart trimEnd loopPoint slices sliceCount checkSum decoded].
  1,2: apply bytes_at_length, B; vm_compute; lia.
  1-5,8-10,13: apply (member_range BigEndian buf _ 4), B; vm_compute; lia.
  1,5: apply (member_range BigEndian buf _ 2), B; vm_compute; lia.
  - apply (member_range h buf _ 1), B. vm_compute. lia.
  - rewrite length_map. apply length_seq.
  - apply List.Forall_forall. intros s Hs. apply in_map_iff in Hs as (i & <- & Hi).
    apply in_seq in Hi.
    assert (Li : (off_slice i + 12 <= length buf)%nat).
    { rewrite L, off_slice_eq. change sizeof_OTData with 832%nat.
      unfold capacity in Hi. lia. }
    destruct (Z.of_nat i <? be_member buf off_sliceCount 4).
    + apply (slice_member_wf BigEndian buf i Li).
    + apply slice_member_wf, Li.
Qed.

(** Every record that [load] returns has a header of 16 bytes, 7 bytes
    after it, 64 slices, every member within the range of its type, and
    a count of at most 64. *)
Theorem load_returns_wf
  (h : byte_order) (file : string) (f : file_state) (data : OTData) :
  load h file f = Done data ->
  wf_OTData data /\ sliceCount data <= 64.
Proof.
  intros E. apply load_Done_inv in E as (_ & -> & C).
  split; [|exact C]. apply decoded_wf.
  rewrite <- zeroed_length at 1. rewrite read_length. apply zeroed_length.
Qed.

Lemma load_returns_wf_witness :
  wf_OTData (sample 2) /\ sliceCount (sample 2) <= 64.
Proof.
  apply (load_returns_wf LittleEndian "AmnKC.ot" (regular (sample_file 2)) (sample 2)).
  vm_compute. reflexivity.
Defined.

(** A file of the right length whose count is above 64 makes [load]
    neither return nor throw: the conversion loop goes through the 64
    entries and then indexes [slices[64]]. *)
Theorem load_count_beyond_capacity
  (h : byte_order) (file : string) (bs : list byte) :
  length bs = 832%nat ->
  64 < be_member bs off_sliceCount 4 ->
  load h file (regular bs) = OutOfBounds 64.
Proof.
  intros L C. rewrite load_regular by exact L.
  destruct (Z.leb_spec (be_member bs off_sliceCount 4) (Z.of_nat capacity))
    as [Le|_]; [unfold capacity in Le; lia|reflexivity].
Qed.

Lemma load_count_beyond_capacity_witness :
  load BigEndian "a.ot" (regular (sample_file 65)) = OutOfBounds 64.
Proof.
  apply (load_count_beyond_capacity BigEndian "a.ot" (sample_file 65)).
  - vm_compute. reflexivity.
  - vm_compute. reflexivity.
Defined.

(** The quantize byte is taken over as it is on either host. *)
Theorem load_keeps_quantize_byte
  (h : byte_order) (file : string) (bs : list byte) (data : OTData) (b : byte) :
  load h file (regular bs) = Done data ->
  bytes_at bs off_quantize 1 = [b] ->
  quantize data = byte.unsigned b.
Proof.
  intros E Q. apply load_regular_Done_inv in E as (_ & -> & _).
  cbn [quantize decoded]. unfold member. rewrite Q.
  destruct h; apply le_combine_1.
Qed.

Lemma load_keeps_quantize_byte_witness : quantize (sample 2) = byte.unsigned xff.
Proof.
  apply (load_keeps_quantize_byte LittleEndian "AmnKC.ot" (sample_file 2)
           (sample 2) xff).
  - vm_compute. reflexivity.
  - vm_compute. reflexivity.
Defined.

(** ** [load] loses nothing of the file *)

Lemma mem_decode_inj h bs1 bs2 :
  length bs1 = length bs2 -> mem_decode h bs1 = mem_decode h bs2 -> bs1 = bs2.
Proof.
  intros L E. destruct h; simpl in E.
  - apply le_combine_inj; assumption.
  - apply le_combine_inj in E; [|rewrite !length_rev; exact L].
    rewrite <- (rev_involutive bs1), <- (rev_involutive bs2), E. reflexivity.
Qed.

Lemma member_inj h b1 b2 off n :
  (off + n <= length b1)%nat -> (off + n <= length b2)%nat ->
  member h b1 off n = member h b2 off n ->
  bytes_at b1 off n = bytes_at b2 off n.
Proof.
  intros L1 L2 E. apply (mem_decode_inj h); [|exact E].
  rewrite !bytes_at_length by assumption. reflexivity.
Qed.

Lemma slice_member_inj h b1 b2 i :
  (off_slice i + 12 <= length b1)%nat -> (off_slice i + 12 <= length b2)%nat ->
  slice_member h b1 i = slice_member h b2 i ->
  bytes_at b1 (off_slice i) 12 = bytes_at b2 (off_slice i) 12.
Proof.
  intros L1 L2 E.
  pose proof (f_equal Slice.startPoint E) as Es.
  pose proof (f_equal Slice.endPoint E) as Ee.
  pose proof (f_equal Slice.loopPoint E) as El.
  cbn [slice_member Slice.startPoint Slice.endPoint Slice.loopPoint] in Es, Ee, El.
  apply member_inj in Es; [|lia|lia].
  apply member_inj in Ee; [|lia|lia].
  apply member_inj in El; [|lia|lia].
  change 12%nat with (4 + (4 + 4))%nat. rewrite !bytes_at_add.
  rewrite <- !Nat.add_assoc. change (4 + 4)%nat with 8%nat.
  rewrite Es, Ee, El. reflexivity.
Qed.

(** A run of [n] entries of 12 bytes is fixed by its entries. *)
Lemma bytes_at_entries (b1 b2 : list byte) off n :
  (forall i, (i < n)%nat ->
     bytes_at b1 (off + i * 12) 12 = bytes_at b2 (off + i * 12) 12) ->
  bytes_at b1 off (n * 12) = bytes_at b2 off (n * 12).
Proof.
  induction n as [|n IH]; intros E; [reflexivity|].
  replace (S n * 12)%nat with (n * 12 + 12)%nat by lia.
  rewrite !bytes_at_add, IH, (E n) by (intros; try apply E; lia).
  reflexivity.
Qed.

Lemma decoded_inj h b1 b2 :
  length b1 = sizeof_OTData -> length b2 = sizeof_OTData ->
  decoded h b1 = decoded h b2 -> b1 = b2.
Proof.
  intros L1 L2 E.
  assert (B1 : forall off n, (off + n <= 832)%nat -> (off + n <= length b1)%nat)
    by (intros; rewrite L1; assumption).
  assert (B2 : forall off n, (off + n <= 832)%nat -> (off + n <= length b2)%nat)
    by (intros; rewrite L2; assumption).
  assert (W : forall b : list byte, length b = sizeof_OTData ->
    b = bytes_at b off_header 16 ++ bytes_at b off_unknown 7
        ++ bytes_at b off_tempo 4 ++ bytes_at b off_trimLen 4
        ++ bytes_at b off_loopLen 4 ++ bytes_at b off_stretch 4
        ++ bytes_at b off_loop 4 ++ bytes_at b off_gain 2
        ++ bytes_at b off_quantize 1 ++ bytes_at b off_trimStart 4
        ++ bytes_at b off_trimEnd 4 ++ bytes_at b off_loopPoint 4
        ++ bytes_at b off_slices (capacity * 12)
        ++ bytes_at b off_sliceCount 4 ++ bytes_at b off_checkSum 2).
  { intros b L. rewrite <- !bytes_at_add. unfold bytes_at, off_header.
    rewrite drop_0, take_ge; [reflexivity|]. rewrite L. vm_compute. lia. }
  rewrite (W b1 L1), (W b2 L2).
  pose proof (f_equal header E) as Eh. pose proof (f_equal unknown E) as Eu.
  pose proof (f_equal tempo E) as E1. pose proof (f_equal trimLen E) as E2.
  pose proof (f_equal loopLen E) as E3. pose proof (f_equal stretch E) as E4.
  pose proof (f_equal loop E) as E5. pose proof (f_equal gain E) as E6.
  pose proof (f_equal quantize E) as E7. pose proof (f_equal trimStart E) as E8.
  pose proof (f_equal trimEnd E) as E9. pose proof (f_equal loopPoint E) as E10.
  pose proof (f_equal sliceCount E) as E11. pose proof (f_equal checkSum E) as E12.
  cbn [header unknown tempo trimLen loopLen stretch loop gain quantize
       trimStart trimEnd loopPoint sliceCount checkSum decoded] in *.
  apply (member_inj BigEndian) in E1, E2, E3, E4, E5, E6, E8, E9, E10, E11, E12;
    try (apply B1 || apply B2; vm_compute; lia).
  apply member_inj in E7; try (apply B1 || apply B2; vm_compute; lia).
  rewrite Eh, Eu, E1, E2, E3, E4, E5, E6, E7, E8, E9, E10, E11, E12.
  do 12 f_equal. f_equal.
  apply bytes_at_entries. intros i Hi.
  assert (Li1 : (off_slice i + 12 <= length b1)%nat).
  { rewrite L1, off_slice_eq. change sizeof_OTData with 832%nat.
    unfold capacity in Hi. lia. }
  assert (Li2 : (off_slice i + 12 <= length b2)%nat).
  { rewrite L2, off_slice_eq. change sizeof_OTData with 832%nat.
    unfold capacity in Hi. lia. }
  pose proof (decoded_slices_lookup h b1 i Hi) as S1.
  pose proof (decoded_slices_lookup h b2 i Hi) as S2.
  rewrite E in S1. rewrite S1 in S2. apply (inj Some) in S2.
  destruct (Z.of_nat i <? sliceCount (decoded h b2)).
  - apply (slice_member_inj BigEndian); [exact Li1|exact Li2|exact S2].
  - apply (slice_member_inj h); [exact Li1|exact Li2|exact S2].
Qed.

(** Two files from which [load] returns the same record are the same
    file, byte for byte. *)
Theorem load_injective
  (h : byte_order) (file1 file2 : string) (bs1 bs2 : list byte) (data : OTData) :
  load h file1 (regular bs1) = Done data ->
  load h file2 (regular bs2) = Done data ->
  bs1 = bs2.
Proof.
  intros E1 E2.
  apply load_regular_Done_inv in E1 as (L1 & D1 & _).
  apply load_regular_Done_inv in E2 as (L2 & D2 & _).
  apply (decoded_inj h); [exact L1|exact L2|]. rewrite <- D1, <- D2. reflexivity.
Qed.

Lemma load_injective_witness : sample_file 2 = serialize (sample 2).
Proof.
  apply (load_injective LittleEndian "a.ot" "b.ot" (sample_file 2)
           (serialize (sample 2)) (sample 2)).
  - vm_compute. reflexivity.
  - vm_compute. reflexivity.
Defined.
